(** * Readout loop of the CRU experimental DMA utility

    Shallow embedding of [ProgramCruExperimentalDma.cxx] (the readout
    queue, the push/readout/acknowledge loop, the page validator and the
    FIFO initialisation) and of the header decoders of [Cru/DataFormat.h]. *)

From Stdlib Require Import ZArith List Bool Lia.
From Stdlib Require Import Strings.Byte.
From Stdlib Require Strings.String.
Import ListNotations.
Open Scope Z_scope.

(** ** Constants (anonymous namespace of the program) *)

Definition MAX_RECORDED_ERRORS : Z := 1000.
Definition DMA_ALIGNMENT : Z := 32.
Definition DMA_PAGE_SIZE : Z := 8 * 1024.
Definition DMA_PAGE_SIZE_32 : Z := DMA_PAGE_SIZE / 4.
Definition NUM_OF_BUFFERS : Z := 32.
Definition FIFO_ENTRIES : Z := 4.
Definition NUM_PAGES : Z := FIFO_ENTRIES * NUM_OF_BUFFERS.
Definition BUFFER_DEFAULT_VALUE : Z := 3435973836. (* 0xCcccCccc *)
Definition PATTERN_STRIDE : Z := 8.
(** [HANDLING_SIGINT_TIMEOUT = 10ms], in nanoseconds of the clock. *)
Definition HANDLING_SIGINT_TIMEOUT : Z := 10000000.
(** [ProgramCruExperimentalDma::LOW_PRIORITY_INTERVAL] *)
Definition LOW_PRIORITY_INTERVAL : Z := 10000.

(** uint32_t wrap-around. *)
Definition u32 (x : Z) : Z := x mod 2 ^ 32.

(** ** Generator patterns *)

(** Modelled from the spec: [GeneratorPattern::type] of
    [ReadoutCard/ParameterTypes/GeneratorPattern.h] (header not in the
    sources). The program names the kinds [Incremental], [Alternating],
    [Constant] and [Unknown] (see [getCurrentGeneratorPattern]). *)
Inductive GeneratorPattern :=
| Incremental
| Alternating
| Constant
| Unknown.

(** Exceptions thrown by the program ([BOOST_THROW_EXCEPTION]). *)
Inductive Error :=
| UnrecognizedGeneratorPattern (p : GeneratorPattern)
| InsufficientPages
| FifoNotAligned.

(** ** Pages, handles, error records *)

(** A page of memory, indexed by 32-bit word offset; each word is a
    [uint32_t]. *)
Definition Page := Z -> Z.

(** [struct Handle]. [hSeq] is a ghost field, not in the source: the value
    of [mPushCounter] when the handle was pushed; it names the pushed page
    in statements about push order. *)
Record Handle := mkHandle {
  descriptorIndex : Z;
  pageIndex : Z;
  hSeq : Z
}.

(** One line of [mErrorStream]:
    ["Error @ event:" eventNumber " page:" pageIndex " i:" i " exp:" expected " val:" actual]. *)
Record ErrorRecord := mkErrorRecord {
  erEvent : Z;
  erPage : Z;
  erOffset : Z;
  erExpected : Z;
  erActual : Z
}.

(** ** PageValidator: [checkErrors] *)

(** The loop of the [check] lambda:
    [for (i = 0; i < DMA_PAGE_SIZE_32; i += PATTERN_STRIDE)]; it returns
    the first mismatching offset with its expected and actual values.
    [n] bounds the number of iterations ([DMA_PAGE_SIZE_32 / PATTERN_STRIDE]). *)
Fixpoint check_loop (n : nat) (patternFunction : Z -> Z) (page : Page) (i : Z)
  : option (Z * Z * Z) :=
  match n with
  | O => None
  | S n' =>
      if i <? DMA_PAGE_SIZE_32 then
        let expectedValue := patternFunction i in
        let actualValue := page i in
        if negb (actualValue =? expectedValue) then Some (i, expectedValue, actualValue)
        else check_loop n' patternFunction page (i + PATTERN_STRIDE)
      else None
  end.

Definition check_iterations : nat := Z.to_nat (DMA_PAGE_SIZE_32 / PATTERN_STRIDE).

(** Validator state touched by [checkErrors]: [mErrorCount] and [mErrorStream]. *)
Record ValidatorState := mkValidatorState {
  vErrorCount : Z;
  vErrorStream : list ErrorRecord
}.

(** The [check] lambda: on the first mismatch, [mErrorCount++], a line is
    recorded when [isVerbose() && mErrorCount < MAX_RECORDED_ERRORS], and
    [true] is returned. *)
Definition check (verbose : bool) (patternFunction : Z -> Z) (page : Page)
    (pageIdx eventNumber : Z) (vs : ValidatorState) : bool * ValidatorState :=
  match check_loop check_iterations patternFunction page 0 with
  | None => (false, vs)
  | Some (i, expectedValue, actualValue) =>
      let ec := vErrorCount vs + 1 in
      let es := if verbose && (ec <? MAX_RECORDED_ERRORS)
                then vErrorStream vs ++ [mkErrorRecord eventNumber pageIdx i expectedValue actualValue]
                else vErrorStream vs in
      (true, mkValidatorState ec es)
  end.

(** [checkErrors(pattern, handle, eventNumber, counter)]; [counter] is a
    [uint32_t]. The [default] branch of the switch throws. *)
Definition checkErrors (verbose : bool) (pattern : GeneratorPattern) (page : Page)
    (pageIdx eventNumber counter : Z) (vs : ValidatorState)
  : Error + (bool * ValidatorState) :=
  match pattern with
  | Incremental => inr (check verbose (fun i => u32 (counter + i / 8)) page pageIdx eventNumber vs)
  | Alternating => inr (check verbose (fun _ => 2779096485 (* 0xa5a5a5a5 *)) page pageIdx eventNumber vs)
  | Constant => inr (check verbose (fun _ => 305419896 (* 0x12345678 *)) page pageIdx eventNumber vs)
  | Unknown => inl (UnrecognizedGeneratorPattern pattern)
  end.

Definition is_recognized (p : GeneratorPattern) : bool :=
  match p with
  | Incremental | Alternating | Constant => true
  | Unknown => false
  end.

(** ** DataFormat ([Cru/DataFormat.h]) *)

Module DataFormat.

(** Unsigned value of a [char] of the header. *)
Definition byteAt (data : list byte) (k : nat) : Z :=
  Z.of_N (Byte.to_N (nth k data x00)).

(** [getWord(data, i)]: [memcpy] of four bytes at [sizeof(word) * i] into a
    [uint32_t], little-endian. *)
Definition getWord (data : list byte) (i : nat) : Z :=
  Z.lor (byteAt data (4 * i))
    (Z.lor (Z.shiftl (byteAt data (4 * i + 1)) 8)
      (Z.lor (Z.shiftl (byteAt data (4 * i + 2)) 16)
             (Z.shiftl (byteAt data (4 * i + 3)) 24))).

(** Modelled from the spec: [Utilities::getBits(x, lsb, msb)] of
    [Utilities/Util.h] (not in the sources), bits [lsb] to [msb] of [x]
    inclusive, shifted down to bit 0. *)
Definition getBits (x lsb msb : Z) : Z :=
  Z.land (Z.shiftr x lsb) (Z.ones (msb - lsb + 1)).

Definition getLinkId (data : list byte) : Z := getBits (getWord data 3) 0 7.

Definition getEventSize (data : list byte) : Z := getBits (getWord data 2) 16 31.

Definition getPacketCounter (data : list byte) : Z := getBits (getWord data 3) 8 15.

Definition getHeaderSize : Z := 64.

End DataFormat.

(** ** Descriptor table and page addresses *)

(** [PageAddress] (user-space and bus address of a page). *)
Record PageAddress := mkPageAddress {
  paUser : Z;
  paBus : Z
}.

Definition nullPageAddress : PageAddress := mkPageAddress 0 0.

(** One entry of the descriptor table: length in 32-bit words, source
    address in the card, destination bus address. *)
Record Descriptor := mkDescriptor {
  dLength : Z;
  dSource : Z;
  dDestination : Z
}.

Definition DescriptorTable := Z -> Descriptor.

(** Modelled from the spec: [CruFifoTable] (header not in the sources) has
    one descriptor entry and one status entry per ring slot, i.e.
    [NUM_PAGES] of each. *)
Definition DESCRIPTOR_ENTRIES : Z := NUM_PAGES.

Definition upd {A} (f : Z -> A) (k : Z) (v : A) : Z -> A :=
  fun k' => if k' =? k then v else f k'.

(** [setDescriptor(pageIndex, descriptorIndex)]: source address is
    [(descriptorIndex % NUM_OF_BUFFERS) * DMA_PAGE_SIZE], destination the bus
    address of the page. The pages are looked up with [at]; every call of
    the program passes an index in range. *)
Definition setDescriptor (pageAddresses : list PageAddress) (tbl : DescriptorTable)
    (pageIdx descIdx : Z) : DescriptorTable :=
  let pageAddress := nth (Z.to_nat pageIdx) pageAddresses nullPageAddress in
  upd tbl descIdx
    (mkDescriptor DMA_PAGE_SIZE_32 ((descIdx mod NUM_OF_BUFFERS) * DMA_PAGE_SIZE) (paBus pageAddress)).

(** The safety loop of [initFifo]:
    [for (i = 0; i < descriptorEntries.size(); i++) setDescriptor(i, i)]. *)
Fixpoint setDescriptors_go (pageAddresses : list PageAddress) (n : nat) (i : Z)
    (tbl : DescriptorTable) : DescriptorTable :=
  match n with
  | O => tbl
  | S n' => setDescriptors_go pageAddresses n' (i + 1) (setDescriptor pageAddresses tbl i i)
  end.

Definition uninitialisedTable : DescriptorTable := fun _ => mkDescriptor 0 0 0.

(** [initFifo()], from the result of the scatter-gather partitioning
    onwards: throws when [mPageAddresses.size() <= NUM_PAGES], otherwise
    fills every descriptor entry with a valid address. (The status entries
    are reset there too; see [initRun].) *)
Definition initFifo (pageAddresses : list PageAddress) : Error + DescriptorTable :=
  if Z.of_nat (length pageAddresses) <=? NUM_PAGES then inl InsufficientPages
  else inr (setDescriptors_go pageAddresses (Z.to_nat DESCRIPTOR_ENTRIES) 0 uninitialisedTable).

(** [Stuff::checkAlignment(address, alignment)]: [address] is the 64-bit
    value of the pointer. *)
Definition checkAlignment (address alignment : Z) : bool :=
  address mod alignment =? 0.

(** ** Program options *)

Record Config := mkConfig {
  maxPages : Z;                 (* --pages *)
  fileOutput : bool;            (* --to-file-ascii || --to-file-bin *)
  checkError : bool;            (* --check-pattern given *)
  generatorPattern : GeneratorPattern;
  resyncCounter : bool;         (* --resync-counter *)
  legacyAck : bool;             (* --legacy-ack *)
  verbose : bool;               (* isVerbose() *)
  pageAddresses : list PageAddress  (* mPageAddresses, from the partitioning *)
}.

(** [mInfinitePages = (mOptions.maxPages <= 0)] *)
Definition infinitePages (cfg : Config) : bool := maxPages cfg <=? 0.

(** ** Observable events

    Effects of the loop on the hardware and the outside world, in the
    order the program performs them. *)
Inductive Event :=
| EvPush (h : Handle)             (* setDescriptor + mQueue.push in pushPage *)
| EvPrintToFile (h : Handle)      (* printToFile *)
| EvCheckErrors (h : Handle)      (* checkErrors returned *)
| EvResetPage (h : Handle)        (* resetPage(getPageAddress(handle)) *)
| EvResetStatus (d : Z)           (* statusEntries[d].reset() *)
| EvIncrementCounters             (* mDataGeneratorCounter += 256; mReadoutCounter++ *)
| EvAcknowledge                   (* acknowledgePage() *)
| EvPop (h : Handle)              (* mQueue.pop() *)
| EvMsgMaxTemperature             (* "ABORTING: MAX TEMPERATURE EXCEEDED" *)
| EvMsgInterrupted                (* "Interrupted" *)
| EvMsgInterruptedTimeout.        (* "Interrupted (did not finish readout queue)" *)

(** ** Run state (members of [ProgramCruExperimentalDma]) *)

Record Run := mkRun {
  queue : list Handle;            (* mQueue *)
  pushCounter : Z;                (* mPushCounter *)
  readoutCounter : Z;             (* mReadoutCounter *)
  dataGeneratorCounter : Z;       (* mDataGeneratorCounter *)
  descriptorCounter : Z;          (* mDescriptorCounter *)
  pageIndexCounter : Z;           (* mPageIndexCounter *)
  validator : ValidatorState;     (* mErrorCount, mErrorStream *)
  status : Z -> bool;             (* statusEntries[d].isPageArrived() *)
  table : DescriptorTable;        (* descriptorEntries *)
  memory : Z -> Page;             (* page contents, by page index *)
  pushEnabled : bool;             (* mPushEnabled *)
  dmaLoopBreak : bool;            (* mDmaLoopBreak *)
  handlingSigint : bool;          (* mHandlingSigint *)
  handlingSigintStart : Z;        (* mHandlingSigintStart *)
  lowPriorityCounter : Z;         (* mLowPriorityCounter *)
  log : list Event                (* observable effects so far *)
}.

Definition set_queue q s := mkRun q (pushCounter s) (readoutCounter s) (dataGeneratorCounter s)
  (descriptorCounter s) (pageIndexCounter s) (validator s) (status s) (table s) (memory s)
  (pushEnabled s) (dmaLoopBreak s) (handlingSigint s) (handlingSigintStart s) (lowPriorityCounter s) (log s).
Definition set_counters pc dc pic s := mkRun (queue s) pc (readoutCounter s) (dataGeneratorCounter s)
  dc pic (validator s) (status s) (table s) (memory s)
  (pushEnabled s) (dmaLoopBreak s) (handlingSigint s) (handlingSigintStart s) (lowPriorityCounter s) (log s).
Definition set_readout rc dgc s := mkRun (queue s) (pushCounter s) rc dgc
  (descriptorCounter s) (pageIndexCounter s) (validator s) (status s) (table s) (memory s)
  (pushEnabled s) (dmaLoopBreak s) (handlingSigint s) (handlingSigintStart s) (lowPriorityCounter s) (log s).
Definition set_validator vs s := mkRun (queue s) (pushCounter s) (readoutCounter s) (dataGeneratorCounter s)
  (descriptorCounter s) (pageIndexCounter s) vs (status s) (table s) (memory s)
  (pushEnabled s) (dmaLoopBreak s) (handlingSigint s) (handlingSigintStart s) (lowPriorityCounter s) (log s).
Definition set_status st s := mkRun (queue s) (pushCounter s) (readoutCounter s) (dataGeneratorCounter s)
  (descriptorCounter s) (pageIndexCounter s) (validator s) st (table s) (memory s)
  (pushEnabled s) (dmaLoopBreak s) (handlingSigint s) (handlingSigintStart s) (lowPriorityCounter s) (log s).
Definition set_table t s := mkRun (queue s) (pushCounter s) (readoutCounter s) (dataGeneratorCounter s)
  (descriptorCounter s) (pageIndexCounter s) (validator s) (status s) t (memory s)
  (pushEnabled s) (dmaLoopBreak s) (handlingSigint s) (handlingSigintStart s) (lowPriorityCounter s) (log s).
Definition set_memory m s := mkRun (queue s) (pushCounter s) (readoutCounter s) (dataGeneratorCounter s)
  (descriptorCounter s) (pageIndexCounter s) (validator s) (status s) (table s) m
  (pushEnabled s) (dmaLoopBreak s) (handlingSigint s) (handlingSigintStart s) (lowPriorityCounter s) (log s).
Definition set_flags pe brk hs hst s := mkRun (queue s) (pushCounter s) (readoutCounter s) (dataGeneratorCounter s)
  (descriptorCounter s) (pageIndexCounter s) (validator s) (status s) (table s) (memory s)
  pe brk hs hst (lowPriorityCounter s) (log s).
Definition set_lowPriorityCounter c s := mkRun (queue s) (pushCounter s) (readoutCounter s) (dataGeneratorCounter s)
  (descriptorCounter s) (pageIndexCounter s) (validator s) (status s) (table s) (memory s)
  (pushEnabled s) (dmaLoopBreak s) (handlingSigint s) (handlingSigintStart s) c (log s).
Definition emit e s := mkRun (queue s) (pushCounter s) (readoutCounter s) (dataGeneratorCounter s)
  (descriptorCounter s) (pageIndexCounter s) (validator s) (status s) (table s) (memory s)
  (pushEnabled s) (dmaLoopBreak s) (handlingSigint s) (handlingSigintStart s) (lowPriorityCounter s)
  (log s ++ [e]).

(** ** ReadoutQueue and FlowController *)

(** [mQueue.push(h)]: [std::queue] over a [boost::circular_buffer] of
    capacity [NUM_PAGES]; [push_back] on a full buffer overwrites the front. *)
Definition queue_push (q : list Handle) (h : Handle) : list Handle :=
  if Z.of_nat (length q) <? NUM_PAGES then q ++ [h] else tl q ++ [h].

(** [shouldPushQueue()] *)
Definition shouldPushQueue (cfg : Config) (s : Run) : bool :=
  (Z.of_nat (length (queue s)) <? NUM_PAGES)
  && (infinitePages cfg || (pushCounter s <? maxPages cfg))
  && pushEnabled s.

(** [pushPage()] *)
Definition pushPage (cfg : Config) (s : Run) : Run :=
  let dc := descriptorCounter s in
  let pic := pageIndexCounter s in
  let s1 := set_table (setDescriptor (pageAddresses cfg) (table s) pic dc) s in
  let h := mkHandle dc pic (pushCounter s) in
  let s2 := emit (EvPush h) (set_queue (queue_push (queue s1) h) s1) in
  set_counters (pushCounter s + 1) ((dc + 1) mod NUM_PAGES)
    ((pic + 1) mod Z.of_nat (length (pageAddresses cfg))) s2.

(** The [while (shouldPushQueue()) pushPage();] loop of [fillReadoutQueue];
    [n] bounds the iterations. *)
Fixpoint fill_go (n : nat) (cfg : Config) (s : Run) : Run :=
  match n with
  | O => s
  | S n' => if shouldPushQueue cfg s then fill_go n' cfg (pushPage cfg s) else s
  end.

(** [fillReadoutQueue()]. Each push grows the queue by one and the guard
    requires fewer than [NUM_PAGES] entries, so [NUM_PAGES] iterations
    exhaust the loop (lemma [fillReadoutQueue_exhausts]). [mLastFillSize]
    only feeds the status display and is left out. *)
Definition fillReadoutQueue (cfg : Config) (s : Run) : Run :=
  fill_go (Z.to_nat NUM_PAGES) cfg s.

(** ** Hardware

    The card works concurrently with the loop: it marks status entries as
    arrived and writes page contents. The status entries are read in one
    place only ([readoutQueueHasPageAvailable]), so the card's writes of an
    iteration are applied just before that read. *)
Inductive HwEvent :=
| HwArrive (d : Z)
| HwWrite (p : Z) (content : Page).

Definition apply_hw (s : Run) (ev : HwEvent) : Run :=
  match ev with
  | HwArrive d => set_status (upd (status s) d true) s
  | HwWrite p content => set_memory (upd (memory s) p content) s
  end.

(** ** StatusPoll and readout *)

(** [readoutQueueHasPageAvailable()] *)
Definition readoutQueueHasPageAvailable (s : Run) : bool :=
  match queue s with
  | [] => false
  | h :: _ => status s (descriptorIndex h)
  end.

(** [resetPage(page)]: every word set to [BUFFER_DEFAULT_VALUE]. *)
Definition resetPage (p : Z) (s : Run) : Run :=
  set_memory (upd (memory s) p
    (fun i => if (0 <=? i) && (i <? DMA_PAGE_SIZE_32) then BUFFER_DEFAULT_VALUE
              else memory s p i)) s.

(** The data-error-checking block of [readoutPage]. *)
Definition readoutCheck (cfg : Config) (h : Handle) (s : Run) : Error + Run :=
  if checkError cfg then
    let page := memory s (pageIndex h) in
    (* First page initializes the counter *)
    let dgc := if dataGeneratorCounter s =? -1 then page 0 else dataGeneratorCounter s in
    match checkErrors (verbose cfg) (generatorPattern cfg) page (pageIndex h)
            (readoutCounter s) (u32 dgc) (validator s) with
    | inl e => inl e
    | inr (hasError, vs) =>
        let dgc' := if hasError && resyncCounter cfg then page 0 else dgc in
        inr (emit (EvCheckErrors h) (set_readout (readoutCounter s) dgc' (set_validator vs s)))
    end
  else inr s.

(** [readoutPage(handle)] *)
Definition readoutPage (cfg : Config) (h : Handle) (s : Run) : Error + Run :=
  let s1 := if fileOutput cfg then emit (EvPrintToFile h) s else s in
  match readoutCheck cfg h s1 with
  | inl e => inl e
  | inr s2 =>
      let s3 := emit (EvResetPage h) (resetPage (pageIndex h) s2) in
      let s4 := emit (EvResetStatus (descriptorIndex h))
                  (set_status (upd (status s3) (descriptorIndex h) false) s3) in
      inr (emit EvIncrementCounters
             (set_readout (readoutCounter s4 + 1) (dataGeneratorCounter s4 + 256) s4))
  end.

(** [acknowledgePage()]: [sendAcknowledge()]. The idle-counter
    bookkeeping that follows only writes diagnostics and is left out. *)
Definition acknowledgePage (s : Run) : Run := emit EvAcknowledge s.

(** The body of [if (readoutQueueHasPageAvailable()) { ... }] in [runDma]:
    read out the front, acknowledge (every page, or in legacy mode when
    [mReadoutCounter % 4 == 0]), pop. *)
Definition consumeFront (cfg : Config) (s : Run) : Error + Run :=
  match queue s with
  | [] => inr s
  | h :: _ =>
      match readoutPage cfg h s with
      | inl e => inl e
      | inr s1 =>
          let s2 := if legacyAck cfg then
                      (if readoutCounter s1 mod 4 =? 0 then acknowledgePage s1 else s1)
                    else acknowledgePage s1 in
          inr (emit (EvPop h) (set_queue (tl (queue s2)) s2))
      end
  end.

(** ** Supervisor: [lowPriorityTasks] *)

(** What the loop observes of the outside world in one iteration: the
    temperature monitor's flag, the SIGINT flag, the clock (nanoseconds)
    and the card's writes. *)
Record Env := mkEnv {
  envMaxExceeded : bool;
  envSigInt : bool;
  envNow : Z;
  envHw : list HwEvent
}.

(** [lowPriorityTasks()]. The status display and the random pauses that
    follow the SIGINT block touch no modelled state (console output, a
    sleep, the emulator-control register) and are left out. *)
Definition lowPriorityTasks (e : Env) (s : Run) : Run :=
  if lowPriorityCounter s <? LOW_PRIORITY_INTERVAL then
    set_lowPriorityCounter (lowPriorityCounter s + 1) s
  else
    let s := set_lowPriorityCounter 0 s in
    if envMaxExceeded e then
      set_flags (pushEnabled s) true (handlingSigint s) (handlingSigintStart s)
        (emit EvMsgMaxTemperature s)
    else if envSigInt e then
      let s := if negb (handlingSigint s)
               then set_flags false (dmaLoopBreak s) true (envNow e) s
               else s in
      if Nat.eqb (length (queue s)) 0 then
        set_flags (pushEnabled s) true (handlingSigint s) (handlingSigintStart s)
          (emit EvMsgInterrupted s)
      else if envNow e - handlingSigintStart s >? HANDLING_SIGINT_TIMEOUT then
        set_flags (pushEnabled s) true (handlingSigint s) (handlingSigintStart s)
          (emit EvMsgInterruptedTimeout s)
      else s
    else s.

(** ** The main loop of [runDma] *)

(** Why the [while (true)] loop was left: the page-limit check
    ("Maximum amount of pages reached") or [mDmaLoopBreak]. *)
Inductive StopReason := StopPageLimit | StopLoopBreak.

Inductive IterResult :=
| Continue (s : Run)
| Stopped (r : StopReason) (s : Run)
| Thrown (e : Error).

(** One iteration of the loop. *)
Definition loop_iter (cfg : Config) (e : Env) (s : Run) : IterResult :=
  if negb (infinitePages cfg) && (readoutCounter s >=? maxPages cfg) then Stopped StopPageLimit s
  else if dmaLoopBreak s then Stopped StopLoopBreak s
  else
    let s1 := lowPriorityTasks e s in
    let s2 := fillReadoutQueue cfg s1 in
    let s3 := fold_left apply_hw (envHw e) s2 in
    if readoutQueueHasPageAvailable s3 then
      match consumeFront cfg s3 with
      | inl err => Thrown err
      | inr s4 => Continue s4
      end
    else Continue s3.

(** [fuel] iterations of the loop from iteration [k]; [Continue] when the
    fuel runs out. *)
Fixpoint runLoop (cfg : Config) (env : nat -> Env) (fuel k : nat) (s : Run) : IterResult :=
  match fuel with
  | O => Continue s
  | S f =>
      match loop_iter cfg (env k) s with
      | Continue s' => runLoop cfg env f (S k) s'
      | r => r
      end
  end.

(** End-of-run statistics printed by [outputStats()]. *)
Record Summary := mkSummary {
  sumPages : Z;      (* "Pages" *)
  sumBytes : Z;      (* "Bytes" *)
  sumErrors : Z      (* "Errors" *)
}.

Definition outputStats (s : Run) : Summary :=
  mkSummary (readoutCounter s) (readoutCounter s * DMA_PAGE_SIZE) (vErrorCount (validator s)).

(** State after [initFifo] ([resetStatusEntries]), [resetBuffer] and the
    member initialisers. *)
Definition initRun (tbl : DescriptorTable) : Run :=
  mkRun [] 0 0 (-1) 0 0 (mkValidatorState 0 []) (fun _ => false) tbl
    (fun _ _ => BUFFER_DEFAULT_VALUE) true false false 0 0 [].

Inductive RunOutcome :=
| Finished (r : StopReason) (summary : Summary) (s : Run)
| Aborted (e : Error)
| StillRunning (s : Run)
| InitFailed (e : Error).

(** [runDma()]: first fill, loop, then the statistics. *)
Definition runDma (cfg : Config) (tbl : DescriptorTable) (env : nat -> Env) (fuel : nat) : RunOutcome :=
  let s0 := fillReadoutQueue cfg (initRun tbl) in
  match runLoop cfg env fuel 0 s0 with
  | Stopped r s => Finished r (outputStats s) s
  | Thrown e => Aborted e
  | Continue s => StillRunning s
  end.

(** [initDma()] followed by [runDma()]. [fifoBus] is [mFifoAddress.bus],
    the bus address of the FIFO given by the partitioning in [initFifo].
    The steps of [initDma] with an error path in this program are
    [initFifo] (too few pages) and [initCard] (the FIFO bus address not
    [DMA_ALIGNMENT]-aligned); [resetBuffer], [resetCard],
    [resetTemperatureSensor], [printSomeInfo] and the register writes of
    [initCard] write to the card, the buffer or the console only. *)
Definition runProgram (cfg : Config) (fifoBus : Z) (env : nat -> Env) (fuel : nat) : RunOutcome :=
  match initFifo (pageAddresses cfg) with
  | inl e => InitFailed e
  | inr tbl =>
      if negb (checkAlignment fifoBus DMA_ALIGNMENT) then InitFailed FifoNotAligned
      else runDma cfg tbl env fuel
  end.

(** States at the start of iteration [k] of the loop. *)
Inductive reachable (cfg : Config) (tbl : DescriptorTable) (env : nat -> Env) : nat -> Run -> Prop :=
| reach_init : reachable cfg tbl env 0 (fillReadoutQueue cfg (initRun tbl))
| reach_step k s s' :
    reachable cfg tbl env k s ->
    loop_iter cfg (env k) s = Continue s' ->
    reachable cfg tbl env (S k) s'.

(** A page carrying the incremental pattern of counter [c] on the checked
    words. *)
Definition incremental_page_on_stride (c : Z) (p : Page) : Prop :=
  forall k, 0 <= k < 256 -> p (8 * k) = c + k.

(** ** Reading the event log *)

Definition is_reset (e : Event) : bool :=
  match e with EvResetPage _ => true | _ => false end.

Definition is_ack (e : Event) : bool :=
  match e with EvAcknowledge => true | _ => false end.

Definition is_push (e : Event) : bool :=
  match e with EvPush _ => true | _ => false end.

(** Events that neither read out a page nor acknowledge one. *)
Definition neutral (e : Event) : bool := negb (is_reset e) && negb (is_ack e).

(** The page pushed as number [n] is read out (its content reset) at
    position [i] of the log. *)
Definition readout_pos (L : list Event) (i : nat) (n : Z) : Prop :=
  exists h, nth_error L i = Some (EvResetPage h) /\ hSeq h = n.

Definition count_resets (L : list Event) : nat := length (filter is_reset L).

Definition count_acks (L : list Event) : nat := length (filter is_ack L).

Definition unacked_step (n : nat) (e : Event) : nat :=
  match e with
  | EvResetPage _ => S n
  | EvAcknowledge => O
  | _ => n
  end.

(** Pages read out after the last acknowledgment. *)
Definition unacked (L : list Event) : nat := fold_left unacked_step L O.

Fixpoint zseq (start : Z) (n : nat) : list Z :=
  match n with
  | O => []
  | S n' => start :: zseq (start + 1) n'
  end.

(** The validator never throws under this configuration. *)
Definition validator_ok (cfg : Config) : Prop :=
  checkError cfg = false \/ is_recognized (generatorPattern cfg) = true.

(** Invariant of the loop: the queue holds the pushed-but-not-read pages in
    push order, within capacity; the log reads out pages [0 .. r-1], each
    once, in push order; in legacy mode one acknowledgment per 4 pages. *)
Definition Inv (cfg : Config) (s : Run) : Prop :=
  0 <= readoutCounter s <= pushCounter s
  /\ map hSeq (queue s) = zseq (readoutCounter s) (Z.to_nat (pushCounter s - readoutCounter s))
  /\ Forall (fun h => descriptorIndex h = hSeq h mod NUM_PAGES) (queue s)
  /\ descriptorCounter s = pushCounter s mod NUM_PAGES
  /\ Z.of_nat (length (queue s)) <= NUM_PAGES
  /\ (forall i n, readout_pos (log s) i n -> 0 <= n < readoutCounter s)
  /\ (forall n, 0 <= n < readoutCounter s -> exists i, readout_pos (log s) i n)
  /\ (forall i1 i2 n1 n2, readout_pos (log s) i1 n1 -> readout_pos (log s) i2 n2 ->
        n1 < n2 -> (i1 < i2)%nat)
  /\ Z.of_nat (count_resets (log s)) = readoutCounter s
  /\ (legacyAck cfg = true ->
        Z.of_nat (count_acks (log s)) = readoutCounter s / 4
        /\ Z.of_nat (unacked (log s)) = readoutCounter s mod 4).

(** Page [n] (the [n]-th pushed page) is acknowledged by the
    acknowledgment at position [j] of the log: it was read out before. *)
Definition acked_by (L : list Event) (n : Z) (j : nat) : Prop :=
  exists i, readout_pos L i n /\ (i < j)%nat /\ nth_error L j = Some EvAcknowledge.

Definition is_continue (r : IterResult) : bool :=
  match r with Continue _ => true | _ => false end.

Definition final_state (o : RunOutcome) : option (StopReason * Run) :=
  match o with Finished r _ s => Some (r, s) | _ => None end.

(** What a finite run keeps while it drains: all [maxPages] pages pushed,
    pushes enabled, no loop break, and every status entry of a page not yet
    read out set once the card has completed its descriptor in an earlier
    iteration. *)
Definition drain_inv (cfg : Config) (env : nat -> Env) (k : nat) (s : Run) : Prop :=
  pushCounter s = maxPages cfg
  /\ pushEnabled s = true
  /\ dmaLoopBreak s = false
  /\ (forall d k', readoutCounter s <= d < maxPages cfg -> (k' < k)%nat ->
        In (HwArrive d) (envHw (env k')) -> status s d = true).

Definition quiet_env (e : Env) : Prop := envMaxExceeded e = false /\ envSigInt e = false.

(** ** Further parts of the program *)

(** [getCurrentGeneratorPattern()]. [bar(DMA_CONFIGURATION) && 0b11] is
    a logical and: [dmaConfiguration] is [1] when the register is nonzero,
    [0] otherwise. *)
Definition getCurrentGeneratorPattern (dmaConfigurationRegister : Z) : GeneratorPattern :=
  let dmaConfiguration :=
    if negb (dmaConfigurationRegister =? 0) && negb (3 =? 0) then 1 else 0 in
  if dmaConfiguration =? 1 then Incremental
  else if dmaConfiguration =? 2 then Alternating
  else if dmaConfiguration =? 3 then Constant
  else Unknown.

(** One pass of the [for (hostCounter = 0; hostCounter < 256; ++hostCounter)]
    loop of [RegisterHammer::start]. [readBack v] is the value read back
    from the [DEBUG_READ_WRITE] register after [v] was written to it. The
    result lists the reports ["REGISTER HAMMER: value: ..."] as
    [(pciCounter, hostCounter, regValue)], in the order printed. *)
Definition hammerSweep (readBack : Z -> Z) : list (Z * Z * Z) :=
  flat_map (fun n =>
    let hostCounter := Z.of_nat n in
    let regValue := readBack hostCounter in
    let pciCounter := Z.land regValue 255 in
    if negb (pciCounter =? hostCounter) then [(pciCounter, hostCounter, regValue)] else [])
    (seq 0 256).

(** The bytes of a [uint32_t] in memory, lowest first (the byte order
    [DataFormat::getWord] reads back with [memcpy]). *)
Definition wordBytes (w : Z) : list byte :=
  map (fun k => match Byte.of_N (Z.to_N (Z.land (Z.shiftr w (8 * k)) 255)) with
                | Some b => b
                | None => x00
                end) [0; 1; 2; 3].

(** The [fileOutputBin] branch of [printToFile]:
    [mReadoutStream.write(page, DMA_PAGE_SIZE)], the raw bytes of the
    [DMA_PAGE_SIZE_32] words of the page. *)
Definition printToFileBin (page : Page) : list byte :=
  flat_map (fun i => wordBytes (page (Z.of_nat i))) (seq 0 (Z.to_nat DMA_PAGE_SIZE_32)).

(** What [outputErrors()] writes to [cout]. *)
Inductive ConsoleOutput :=
| OutErrorsHeader                     (* "Errors:\n" *)
| OutText (t : String.string)          (* errorStr.substr(0, maxChars) *)
| OutMoreFollow (n : nat).             (* "\n... more follow (" n " characters)\n" *)

(** [outputErrors()]: the console output, and the content written to the
    [READOUT_ERRORS_PATH] file. *)
Definition outputErrors (verbose : bool) (errorStr : String.string)
  : list ConsoleOutput * String.string :=
  let console :=
    if verbose then
      let maxChars := 2000%nat in
      if negb (String.eqb errorStr String.EmptyString) then
        [OutErrorsHeader; OutText (String.substring 0 maxChars errorStr)]
        ++ (if Nat.ltb maxChars (String.length errorStr)
            then [OutMoreFollow (String.length errorStr - maxChars)] else [])
      else []
    else [] in
  (console, errorStr).

(** Number of page addresses, [mPageAddresses.size()]. *)
Definition numPageAddresses (cfg : Config) : Z := Z.of_nat (length (pageAddresses cfg)).

(** The descriptor entry [setDescriptor(pageIdx, descIdx)] writes. *)
Definition descriptorFor (cfg : Config) (pageIdx descIdx : Z) : Descriptor :=
  setDescriptor (pageAddresses cfg) uninitialisedTable pageIdx descIdx descIdx.

(** The pages of the queue: the page index counter follows the push
    counter round the page addresses; each queued handle names page
    [hSeq mod N] and its descriptor entry still holds what [pushPage]
    wrote for it. *)
Definition pages_inv (cfg : Config) (s : Run) : Prop :=
  pageIndexCounter s = pushCounter s mod numPageAddresses cfg
  /\ Forall (fun h => pageIndex h = hSeq h mod numPageAddresses cfg
                     /\ table s (descriptorIndex h) = descriptorFor cfg (pageIndex h) (descriptorIndex h))
            (queue s).

(** Bounds on the recorded errors: at most one line per counted error and
    fewer than [MAX_RECORDED_ERRORS] lines. *)
Definition errors_bounded (vs : ValidatorState) : Prop :=
  Z.of_nat (length (vErrorStream vs)) <= vErrorCount vs
  /\ Z.of_nat (length (vErrorStream vs)) < MAX_RECORDED_ERRORS.

(** ** Sample inputs at which the theorems are instantiated *)

Definition sample_pages : list PageAddress :=
  map (fun n => mkPageAddress (Z.of_nat n * DMA_PAGE_SIZE) (Z.of_nat n * DMA_PAGE_SIZE)) (seq 0 200).

Definition sample_cfg (maxP : Z) (legacy : bool) : Config :=
  mkConfig maxP false false Incremental false legacy false sample_pages.

(** The card completes descriptors 0 to 4 on every iteration. *)
Definition sample_env (k : nat) : Env :=
  mkEnv false false 0 (map HwArrive (map Z.of_nat (seq 0 5))).

(** The temperature monitor's flag is up at every iteration; no page arrives. *)
Definition overheated_env (k : nat) : Env := mkEnv true false 0 [].

(** SIGINT is pending at every iteration; no page arrives. *)
Definition sigint_env (k : nat) : Env := mkEnv false true 0 [].

(** The card completes descriptors 0 to 4 on every iteration; the
    temperature monitor's flag rises at iteration 10 and stays up. *)
Definition thermal_env (k : nat) : Env :=
  mkEnv (10 <=? k)%nat false 0 (map HwArrive (map Z.of_nat (seq 0 5))).

(** Verbose run checking the incremental pattern. *)
Definition error_cfg : Config :=
  mkConfig 0 false true Incremental false false true sample_pages.

Definition sample_start (cfg : Config) : Run := fillReadoutQueue cfg (initRun uninitialisedTable).

Definition state_after (cfg : Config) (env : nat -> Env) (n : nat) : Run :=
  match runLoop cfg env n 0 (sample_start cfg) with
  | Continue s => s
  | _ => sample_start cfg
  end.

(** An incremental page of counter 100 with word 8 overwritten by 999. *)
Definition mismatch_page : Page := upd (fun i => 100 + i / 8) 8 999.

(** A header whose word 3 is [0x00001234]. *)
Definition sample_header : list byte := repeat x00 12 ++ [x34; x12; x00; x00] ++ repeat x00 48.

(** ** Validator lemmas *)

Lemma check_loop_none (n : nat) (f : Z -> Z) (p : Page) (i : Z) :
  (forall j, 0 <= j < Z.of_nat n -> i + 8 * j < DMA_PAGE_SIZE_32 -> p (i + 8 * j) = f (i + 8 * j)) ->
  check_loop n f p i = None.
Proof.
  revert i; induction n as [|n IH]; intros i H; simpl; [reflexivity|].
  destruct (i <? DMA_PAGE_SIZE_32) eqn:Hi; [|reflexivity].
  apply Z.ltb_lt in Hi.
  assert (H0 : p i = f i).
  { specialize (H 0). rewrite Z.mul_0_r, Z.add_0_r in H. apply H; lia. }
  rewrite H0, Z.eqb_refl; simpl.
  apply IH; intros j Hj Hlt.
  specialize (H (j + 1)).
  replace (i + 8 * (j + 1)) with (i + PATTERN_STRIDE + 8 * j) in H
    by (unfold PATTERN_STRIDE; lia).
  apply H; [lia|exact Hlt].
Qed.

Lemma check_iterations_eq : check_iterations = 256%nat.
Proof. reflexivity. Qed.

Lemma check_incremental_ok (verbose : bool) (c : Z) (p : Page) (pidx ev : Z) (vs : ValidatorState) :
  0 <= c -> c + 255 < 2 ^ 32 ->
  incremental_page_on_stride c p ->
  check verbose (fun i => u32 (c + i / 8)) p pidx ev vs = (false, vs).
Proof.
  intros Hc Hc' Hp; unfold check.
  rewrite check_loop_none; [reflexivity|].
  intros j Hj Hlt. rewrite check_iterations_eq in Hj.
  rewrite Z.add_0_l, Hp by lia.
  rewrite Z.mul_comm, Z.div_mul by lia.
  unfold u32; rewrite Z.mod_small; lia.
Qed.

(** ** DataFormat lemmas *)

Lemma nth_as_nth_error {A} (l : list A) (k : nat) (d : A) :
  nth k l d = match nth_error l k with Some x => x | None => d end.
Proof.
  revert k; induction l as [|a l IH]; intros [|k]; simpl; auto.
Qed.

Lemma getWord3_depends_on_12_15 (d1 d2 : list byte) :
  (forall k, (12 <= k < 16)%nat -> nth_error d1 k = nth_error d2 k) ->
  DataFormat.getWord d1 3 = DataFormat.getWord d2 3.
Proof.
  intros H. unfold DataFormat.getWord, DataFormat.byteAt.
  rewrite !(nth_as_nth_error d1), !(nth_as_nth_error d2).
  simpl Nat.mul; simpl Nat.add.
  rewrite (H 12%nat), (H 13%nat), (H 14%nat), (H 15%nat) by lia.
  reflexivity.
Qed.

(** ** initFifo lemmas *)

Lemma setDescriptors_go_spec (pas : list PageAddress) (n : nat) (i : Z) (tbl : DescriptorTable) (j : Z) :
  setDescriptors_go pas n i tbl j =
  if (i <=? j) && (j <? i + Z.of_nat n) then
    mkDescriptor DMA_PAGE_SIZE_32 ((j mod NUM_OF_BUFFERS) * DMA_PAGE_SIZE)
      (paBus (nth (Z.to_nat j) pas nullPageAddress))
  else tbl j.
Proof.
  revert i tbl; induction n as [|n IH]; intros i tbl; cbn [setDescriptors_go].
  - destruct (i <=? j) eqn:E1, (j <? i + Z.of_nat 0) eqn:E2; simpl; auto.
    apply Z.leb_le in E1; apply Z.ltb_lt in E2; simpl in E2; lia.
  - rewrite IH. unfold setDescriptor, upd.
    destruct (j =? i) eqn:Ej.
    + apply Z.eqb_eq in Ej; subst j.
      destruct (i + 1 <=? i) eqn:E1; [apply Z.leb_le in E1; lia|].
      rewrite Z.leb_refl, andb_true_l, andb_false_l.
      replace (i <? i + Z.of_nat (S n)) with true by (symmetry; apply Z.ltb_lt; lia).
      reflexivity.
    + apply Z.eqb_neq in Ej.
      destruct (i + 1 <=? j) eqn:E1, (j <? i + 1 + Z.of_nat n) eqn:E2,
               (i <=? j) eqn:E3, (j <? i + Z.of_nat (S n)) eqn:E4; simpl; auto;
        rewrite ?Z.leb_le, ?Z.leb_gt, ?Z.ltb_lt, ?Z.ltb_ge in *; lia.
Qed.

(** ** Frame lemmas of the loop's operations *)

Ltac split_and := repeat match goal with |- _ /\ _ => split end.

Ltac split_ifs :=
  repeat match goal with
         | |- context [if ?b then _ else _] => destruct b eqn:?
         end.

Lemma lowPriorityTasks_frame (e : Env) (s : Run) :
  let s' := lowPriorityTasks e s in
  queue s' = queue s /\ pushCounter s' = pushCounter s /\ readoutCounter s' = readoutCounter s
  /\ descriptorCounter s' = descriptorCounter s /\ status s' = status s
  /\ (log s' = log s \/ exists m, log s' = log s ++ [m] /\ neutral m = true /\ is_push m = false).
Proof.
  unfold lowPriorityTasks; cbv zeta; split_ifs; simpl;
    repeat split; auto; right; eexists; split; try reflexivity; split; reflexivity.
Qed.

Lemma lowPriorityTasks_quiet (e : Env) (s : Run) :
  envMaxExceeded e = false -> envSigInt e = false ->
  lowPriorityTasks e s =
  set_lowPriorityCounter (if lowPriorityCounter s <? LOW_PRIORITY_INTERVAL
                          then lowPriorityCounter s + 1 else 0) s.
Proof.
  intros H1 H2; unfold lowPriorityTasks; rewrite H1, H2.
  destruct (lowPriorityCounter s <? LOW_PRIORITY_INTERVAL); reflexivity.
Qed.

Lemma lowPriorityTasks_thermal (e : Env) (s : Run) :
  lowPriorityCounter s = LOW_PRIORITY_INTERVAL -> envMaxExceeded e = true ->
  lowPriorityTasks e s =
  set_flags (pushEnabled s) true (handlingSigint s) (handlingSigintStart s)
    (emit EvMsgMaxTemperature (set_lowPriorityCounter 0 s)).
Proof.
  intros H1 H2; unfold lowPriorityTasks; rewrite H1, H2, Z.ltb_irrefl; reflexivity.
Qed.

Lemma pushPage_frame (cfg : Config) (s : Run) :
  shouldPushQueue cfg s = true ->
  let h := mkHandle (descriptorCounter s) (pageIndexCounter s) (pushCounter s) in
  let s' := pushPage cfg s in
  queue s' = queue s ++ [h] /\ pushCounter s' = pushCounter s + 1
  /\ readoutCounter s' = readoutCounter s
  /\ descriptorCounter s' = (descriptorCounter s + 1) mod NUM_PAGES
  /\ log s' = log s ++ [EvPush h] /\ status s' = status s
  /\ pushEnabled s' = pushEnabled s /\ dmaLoopBreak s' = dmaLoopBreak s
  /\ handlingSigint s' = handlingSigint s.
Proof.
  intros Hs. unfold shouldPushQueue in Hs.
  apply andb_true_iff in Hs as [Hs _]; apply andb_true_iff in Hs as [Hs _].
  unfold pushPage, queue_push; simpl; rewrite Hs.
  repeat split; reflexivity.
Qed.

Lemma shouldPush_length (cfg : Config) (s : Run) :
  shouldPushQueue cfg s = true -> Z.of_nat (length (queue s)) < NUM_PAGES.
Proof.
  unfold shouldPushQueue; intros Hs.
  apply andb_true_iff in Hs as [Hs _]; apply andb_true_iff in Hs as [Hs _].
  apply Z.ltb_lt; exact Hs.
Qed.

Lemma fill_go_frame (n : nat) (cfg : Config) (s : Run) :
  let s' := fill_go n cfg s in
  readoutCounter s' = readoutCounter s /\ status s' = status s
  /\ pushEnabled s' = pushEnabled s /\ dmaLoopBreak s' = dmaLoopBreak s
  /\ handlingSigint s' = handlingSigint s
  /\ exists evs, log s' = log s ++ evs /\ forallb is_push evs = true.
Proof.
  revert s; induction n as [|n IH]; intros s; simpl.
  - repeat split; auto. exists []; rewrite app_nil_r; auto.
  - destruct (shouldPushQueue cfg s) eqn:Hs.
    + destruct (pushPage_frame cfg s Hs) as (_ & _ & H3 & _ & H5 & H6 & H7 & H8 & H9).
      destruct (IH (pushPage cfg s)) as (I1 & I2 & I3 & I4 & I5 & evs & I6 & I7).
      repeat split; try congruence.
      exists (EvPush (mkHandle (descriptorCounter s) (pageIndexCounter s) (pushCounter s)) :: evs).
      rewrite I6, H5, <- app_assoc; auto.
    + repeat split; auto. exists []; rewrite app_nil_r; auto.
Qed.

Lemma fill_go_stops (n : nat) (cfg : Config) (s : Run) :
  shouldPushQueue cfg s = false -> fill_go n cfg s = s.
Proof. destruct n; simpl; intros H; [|rewrite H]; reflexivity. Qed.

Lemma apply_hw_frame (evs : list HwEvent) (s : Run) :
  let s' := fold_left apply_hw evs s in
  queue s' = queue s /\ pushCounter s' = pushCounter s /\ readoutCounter s' = readoutCounter s
  /\ descriptorCounter s' = descriptorCounter s /\ log s' = log s
  /\ pushEnabled s' = pushEnabled s /\ dmaLoopBreak s' = dmaLoopBreak s
  /\ handlingSigint s' = handlingSigint s /\ lowPriorityCounter s' = lowPriorityCounter s.
Proof.
  revert s; induction evs as [|ev evs IH]; intros s; simpl; [repeat split; auto|].
  destruct (IH (apply_hw s ev)) as (I1 & I2 & I3 & I4 & I5 & I6 & I7 & I8 & I9).
  rewrite I1, I2, I3, I4, I5, I6, I7, I8, I9.
  destruct ev; simpl; repeat split; reflexivity.
Qed.

(** Status entries only ever become "arrived" through the card's writes. *)
Lemma apply_hw_status (evs : list HwEvent) (s : Run) (d : Z) :
  status s d = true \/ In (HwArrive d) evs ->
  status (fold_left apply_hw evs s) d = true.
Proof.
  revert s; induction evs as [|ev evs IH]; intros s H; simpl in *.
  - destruct H as [H|[]]; exact H.
  - apply IH. destruct H as [H|[H|H]]; [left|left|right; exact H].
    + destruct ev; simpl; [unfold upd; destruct (d =? d0)|]; auto.
    + subst ev; simpl; unfold upd; rewrite Z.eqb_refl; reflexivity.
Qed.

Lemma apply_hw_status_keep (evs : list HwEvent) (s : Run) (d : Z) :
  status s d = true -> status (fold_left apply_hw evs s) d = true.
Proof. intros H; apply apply_hw_status; left; exact H. Qed.

Lemma readoutCheck_frame (cfg : Config) (h : Handle) (s s' : Run) :
  readoutCheck cfg h s = inr s' ->
  queue s' = queue s /\ pushCounter s' = pushCounter s /\ readoutCounter s' = readoutCounter s
  /\ descriptorCounter s' = descriptorCounter s /\ status s' = status s /\ memory s' = memory s
  /\ pushEnabled s' = pushEnabled s /\ dmaLoopBreak s' = dmaLoopBreak s
  /\ handlingSigint s' = handlingSigint s /\ lowPriorityCounter s' = lowPriorityCounter s
  /\ log s' = log s ++ (if checkError cfg then [EvCheckErrors h] else []).
Proof.
  unfold readoutCheck; destruct (checkError cfg).
  - destruct (checkErrors _ _ _ _ _ _ _) as [e|[hasError vs]]; intros H; [discriminate|].
    injection H as <-; simpl; repeat split; reflexivity.
  - intros H; injection H as <-; rewrite app_nil_r; repeat split; reflexivity.
Qed.

Lemma readoutCheck_ok (cfg : Config) (h : Handle) (s : Run) :
  validator_ok cfg -> exists s', readoutCheck cfg h s = inr s'.
Proof.
  intros [H|H]; unfold readoutCheck; rewrite ?H; [eauto|].
  destruct (checkError cfg); [|eauto].
  destruct (generatorPattern cfg); try discriminate; simpl;
    match goal with |- context [check ?a ?b ?c ?d ?e ?f] => destruct (check a b c d e f) end; eauto.
Qed.

Lemma consumeFront_spec (cfg : Config) (s s' : Run) (h : Handle) (rest : list Handle) :
  queue s = h :: rest ->
  consumeFront cfg s = inr s' ->
  queue s' = rest
  /\ readoutCounter s' = readoutCounter s + 1
  /\ pushCounter s' = pushCounter s
  /\ descriptorCounter s' = descriptorCounter s
  /\ pushEnabled s' = pushEnabled s /\ dmaLoopBreak s' = dmaLoopBreak s
  /\ handlingSigint s' = handlingSigint s /\ lowPriorityCounter s' = lowPriorityCounter s
  /\ (forall d, status s' d = if d =? descriptorIndex h then false else status s d)
  /\ (forall i, 0 <= i < DMA_PAGE_SIZE_32 -> memory s' (pageIndex h) i = BUFFER_DEFAULT_VALUE)
  /\ log s' = log s
       ++ (if fileOutput cfg then [EvPrintToFile h] else [])
       ++ (if checkError cfg then [EvCheckErrors h] else [])
       ++ [EvResetPage h; EvResetStatus (descriptorIndex h); EvIncrementCounters]
       ++ (if negb (legacyAck cfg) || ((readoutCounter s + 1) mod 4 =? 0)
           then [EvAcknowledge] else [])
       ++ [EvPop h].
Proof.
  intros Hq Hc. unfold consumeFront in Hc; rewrite Hq in Hc. unfold readoutPage in Hc.
  set (s1 := if fileOutput cfg then emit (EvPrintToFile h) s else s) in Hc.
  assert (F1 : queue s1 = queue s /\ pushCounter s1 = pushCounter s
               /\ readoutCounter s1 = readoutCounter s /\ descriptorCounter s1 = descriptorCounter s
               /\ status s1 = status s /\ memory s1 = memory s
               /\ pushEnabled s1 = pushEnabled s /\ dmaLoopBreak s1 = dmaLoopBreak s
               /\ handlingSigint s1 = handlingSigint s /\ lowPriorityCounter s1 = lowPriorityCounter s
               /\ log s1 = log s ++ (if fileOutput cfg then [EvPrintToFile h] else [])).
  { unfold s1; destruct (fileOutput cfg); simpl; rewrite ?app_nil_r; repeat split; reflexivity. }
  destruct (readoutCheck cfg h s1) as [e|s2] eqn:Hrc; [discriminate|].
  apply readoutCheck_frame in Hrc.
  destruct F1 as (A1 & A2 & A3 & A4 & A5 & A6 & A7 & A8 & A9 & A10 & A11).
  destruct Hrc as (B1 & B2 & B3 & B4 & B5 & B6 & B7 & B8 & B9 & B10 & B11).
  injection Hc as <-.
  destruct (legacyAck cfg) eqn:Hl;
    [destruct ((readoutCounter s2 + 1) mod 4 =? 0) eqn:Hm|]; simpl;
    rewrite ?B1, ?B2, ?B3, ?B4, ?B5, ?B6, ?B7, ?B8, ?B9, ?B10, ?B11,
            ?A1, ?A2, ?A3, ?A4, ?A5, ?A6, ?A7, ?A8, ?A9, ?A10, ?A11, ?Hq;
    try (rewrite ?B3, ?A3 in Hm; rewrite ?Hm); simpl;
    repeat split; try reflexivity;
    first
     [ intros d; unfold upd; reflexivity
     | intros i Hi; unfold upd; rewrite Z.eqb_refl;
       replace ((0 <=? i) && (i <? DMA_PAGE_SIZE_32)) with true
         by (symmetry; apply andb_true_iff; split; [apply Z.leb_le|apply Z.ltb_lt]; lia);
       reflexivity
     | rewrite <- !app_assoc; reflexivity ].
Qed.

(** ** Log lemmas *)

Lemma readout_pos_app_noreset (L evs : list Event) (i : nat) (n : Z) :
  forallb (fun e => negb (is_reset e)) evs = true ->
  readout_pos (L ++ evs) i n <-> readout_pos L i n.
Proof.
  intros Hev; split; intros (h & Hn & Hs); exists h; split; auto.
  - destruct (Nat.lt_ge_cases i (length L)) as [Hi|Hi].
    + rewrite nth_error_app1 in Hn by exact Hi; exact Hn.
    + rewrite nth_error_app2 in Hn by exact Hi.
      apply nth_error_In in Hn. rewrite forallb_forall in Hev.
      specialize (Hev _ Hn); discriminate.
  - rewrite nth_error_app1; [exact Hn|].
    apply nth_error_Some; rewrite Hn; discriminate.
Qed.

Lemma readout_pos_app_reset (L : list Event) (h : Handle) (i : nat) (n : Z) :
  readout_pos (L ++ [EvResetPage h]) i n <-> readout_pos L i n \/ (i = length L /\ n = hSeq h).
Proof.
  split.
  - intros (h' & Hn & Hs).
    destruct (Nat.lt_ge_cases i (length L)) as [Hi|Hi].
    + left; exists h'; rewrite nth_error_app1 in Hn by exact Hi; auto.
    + right. rewrite nth_error_app2 in Hn by exact Hi.
      destruct (i - length L)%nat eqn:E; simpl in Hn.
      * injection Hn as ->; split; [lia|auto].
      * destruct n0; discriminate.
  - intros [(h' & Hn & Hs)|(-> & ->)].
    + exists h'; split; auto. rewrite nth_error_app1; [exact Hn|].
      apply nth_error_Some; rewrite Hn; discriminate.
    + exists h; split; auto. rewrite nth_error_app2, Nat.sub_diag by lia; reflexivity.
Qed.

Lemma count_resets_app (L1 L2 : list Event) :
  count_resets (L1 ++ L2) = (count_resets L1 + count_resets L2)%nat.
Proof. unfold count_resets; rewrite filter_app, length_app; reflexivity. Qed.

Lemma count_acks_app (L1 L2 : list Event) :
  count_acks (L1 ++ L2) = (count_acks L1 + count_acks L2)%nat.
Proof. unfold count_acks; rewrite filter_app, length_app; reflexivity. Qed.

Lemma unacked_app (L1 L2 : list Event) :
  unacked (L1 ++ L2) = fold_left unacked_step L2 (unacked L1).
Proof. unfold unacked; rewrite fold_left_app; reflexivity. Qed.

Lemma neutral_noreset (evs : list Event) :
  forallb neutral evs = true -> forallb (fun e => negb (is_reset e)) evs = true.
Proof.
  induction evs as [|e evs IH]; simpl; auto.
  unfold neutral; intros H; apply andb_true_iff in H as [H1 H2].
  apply andb_true_iff in H1 as [H1 _]; rewrite H1; simpl; auto.
Qed.

Lemma neutral_counts (evs : list Event) :
  forallb neutral evs = true ->
  count_resets evs = O /\ count_acks evs = O /\ (forall n, fold_left unacked_step evs n = n).
Proof.
  induction evs as [|e evs IH]; simpl; intros H; [repeat split; auto|].
  apply andb_true_iff in H as [H1 H2]; destruct (IH H2) as (I1 & I2 & I3).
  unfold neutral in H1; destruct e; simpl in H1; try discriminate;
    unfold count_resets, count_acks in *; simpl; repeat split; auto.
Qed.

Lemma push_neutral (evs : list Event) :
  forallb is_push evs = true -> forallb neutral evs = true.
Proof.
  induction evs as [|e evs IH]; simpl; auto.
  intros H; apply andb_true_iff in H as [H1 H2].
  destruct e; try discriminate; simpl; auto.
Qed.

Lemma zseq_snoc (a : Z) (n : nat) :
  zseq a (S n) = zseq a n ++ [a + Z.of_nat n].
Proof.
  revert a; induction n as [|n IH]; intros a.
  - simpl; rewrite Z.add_0_r; reflexivity.
  - change (zseq a (S (S n))) with (a :: zseq (a + 1) (S n)).
    rewrite IH; simpl. f_equal. f_equal. f_equal. lia.
Qed.

Lemma zseq_length (a : Z) (n : nat) : length (zseq a n) = n.
Proof. revert a; induction n; simpl; auto. Qed.

(** ** The loop invariant *)

Lemma Inv_frame (cfg : Config) (s s' : Run) (evs : list Event) :
  Inv cfg s ->
  queue s' = queue s -> pushCounter s' = pushCounter s -> readoutCounter s' = readoutCounter s ->
  descriptorCounter s' = descriptorCounter s ->
  log s' = log s ++ evs -> forallb neutral evs = true ->
  Inv cfg s'.
Proof.
  intros (I1 & I2 & I3 & I4 & I5 & I6 & I7 & I8 & I9 & I10) Hq Hp Hr Hd Hl Hn.
  pose proof (neutral_noreset _ Hn) as Hnr.
  destruct (neutral_counts _ Hn) as (N1 & N2 & N3).
  unfold Inv; rewrite Hq, Hp, Hr, Hd, Hl.
  split_and; auto; try lia.
  - intros i n Hpos; rewrite (readout_pos_app_noreset _ _ _ _ Hnr) in Hpos; apply I6 in Hpos; lia.
  - intros n Hn'; destruct (I7 n Hn') as [i Hi]; exists i.
    apply readout_pos_app_noreset; auto.
  - intros i1 i2 n1 n2 P1 P2 Hlt.
    rewrite (readout_pos_app_noreset _ _ _ _ Hnr) in P1; rewrite (readout_pos_app_noreset _ _ _ _ Hnr) in P2; eauto.
  - rewrite count_resets_app, N1, Nat.add_0_r; auto.
  - intros Hleg; rewrite count_acks_app, unacked_app, N2, N3, Nat.add_0_r; apply I10; auto.
Qed.

Lemma Inv_pushPage (cfg : Config) (s : Run) :
  Inv cfg s -> shouldPushQueue cfg s = true -> Inv cfg (pushPage cfg s).
Proof.
  intros HI Hs. pose proof (shouldPush_length _ _ Hs) as Hlen.
  destruct (pushPage_frame cfg s Hs) as (P1 & P2 & P3 & P4 & P5 & _).
  destruct HI as (I1 & I2 & I3 & I4 & I5 & I6 & I7 & I8 & I9 & I10).
  assert (Hn : forallb neutral [EvPush (mkHandle (descriptorCounter s) (pageIndexCounter s) (pushCounter s))] = true)
    by reflexivity.
  destruct (neutral_counts _ Hn) as (N1 & N2 & N3).
  pose proof (neutral_noreset _ Hn) as Hnr.
  unfold Inv; rewrite P1, P2, P3, P4, P5.
  split_and; try lia.
  - rewrite map_app, I2. simpl.
    replace (Z.to_nat (pushCounter s + 1 - readoutCounter s))
      with (S (Z.to_nat (pushCounter s - readoutCounter s))) by lia.
    rewrite zseq_snoc. f_equal. f_equal. lia.
  - apply Forall_app; split; [exact I3|constructor; [exact I4|constructor]].
  - rewrite I4, Z.add_mod_idemp_l by (unfold NUM_PAGES, FIFO_ENTRIES, NUM_OF_BUFFERS; lia).
    reflexivity.
  - rewrite length_app; simpl; lia.
  - intros i n Hpos; rewrite (readout_pos_app_noreset _ _ _ _ Hnr) in Hpos; apply I6 in Hpos; lia.
  - intros n Hn'; destruct (I7 n Hn') as [i Hi]; exists i.
    apply readout_pos_app_noreset; auto.
  - intros i1 i2 n1 n2 Q1 Q2 Hlt.
    rewrite (readout_pos_app_noreset _ _ _ _ Hnr) in Q1; rewrite (readout_pos_app_noreset _ _ _ _ Hnr) in Q2; eauto.
  - rewrite count_resets_app, N1, Nat.add_0_r; auto.
  - intros Hleg; rewrite count_acks_app, unacked_app, N2, N3, Nat.add_0_r; apply I10; auto.
Qed.

Lemma Inv_fill_go (n : nat) (cfg : Config) (s : Run) :
  Inv cfg s -> Inv cfg (fill_go n cfg s).
Proof.
  revert s; induction n as [|n IH]; intros s HI; simpl; auto.
  destruct (shouldPushQueue cfg s) eqn:Hs; auto.
  apply IH, Inv_pushPage; auto.
Qed.

Lemma Inv_consumeFront (cfg : Config) (s s' : Run) (h : Handle) (rest : list Handle) :
  Inv cfg s -> queue s = h :: rest -> consumeFront cfg s = inr s' ->
  Inv cfg s' /\ hSeq h = readoutCounter s.
Proof.
  intros HI Hq Hc.
  destruct (consumeFront_spec cfg s s' h rest Hq Hc)
    as (C1 & C2 & C3 & C4 & _ & _ & _ & _ & _ & _ & C11).
  destruct HI as (I1 & I2 & I3 & I4 & I5 & I6 & I7 & I8 & I9 & I10).
  rewrite Hq in I2, I3, I5. simpl in I2.
  destruct (Z.to_nat (pushCounter s - readoutCounter s)) as [|m] eqn:E; [discriminate|].
  simpl in I2; injection I2 as Hh Hrest.
  set (pre := (if fileOutput cfg then [EvPrintToFile h] else [])
                ++ (if checkError cfg then [EvCheckErrors h] else [])) in *.
  set (A := if negb (legacyAck cfg) || ((readoutCounter s + 1) mod 4 =? 0)
            then [EvAcknowledge] else []) in *.
  set (post := [EvResetStatus (descriptorIndex h); EvIncrementCounters] ++ A ++ [EvPop h]).
  assert (HL : log s' = ((log s ++ pre) ++ [EvResetPage h]) ++ post).
  { rewrite C11; unfold pre, post; rewrite <- !app_assoc; reflexivity. }
  assert (Hpre : forallb neutral pre = true)
    by (unfold pre; destruct (fileOutput cfg), (checkError cfg); reflexivity).
  assert (Hpost : forallb (fun e => negb (is_reset e)) post = true)
    by (unfold post, A; destruct (_ || _); reflexivity).
  assert (Hpos : forall i n, readout_pos (log s') i n <->
                  readout_pos (log s) i n \/ (i = length (log s ++ pre) /\ n = readoutCounter s)).
  { intros i n; rewrite HL, (readout_pos_app_noreset _ _ _ _ Hpost), readout_pos_app_reset.
    rewrite (readout_pos_app_noreset _ _ _ _ (neutral_noreset _ Hpre)), Hh; tauto. }
  destruct (neutral_counts _ Hpre) as (N1 & N2 & N3).
  split; [|exact Hh].
  unfold Inv; rewrite C1, C2, C3, C4.
  split_and; try lia.
  - rewrite Hrest. do 2 f_equal. lia.
  - inversion I3; auto.
  - simpl in I5; lia.
  - intros i n Hp; apply Hpos in Hp as [Hp|(_ & ->)]; [apply I6 in Hp|]; lia.
  - intros n Hn. destruct (Z.eq_dec n (readoutCounter s)) as [->|Hne].
    + exists (length (log s ++ pre)); apply Hpos; right; auto.
    + destruct (I7 n) as [i Hi]; [lia|]. exists i; apply Hpos; left; exact Hi.
  - intros i1 i2 n1 n2 P1 P2 Hlt.
    apply Hpos in P1 as [P1|(E1 & E2)]; apply Hpos in P2 as [P2|(E3 & E4)].
    + eapply I8; eauto.
    + subst i2. destruct P1 as (h1 & Hn1 & _).
      assert (i1 < length (log s))%nat by (apply nth_error_Some; rewrite Hn1; discriminate).
      rewrite length_app; lia.
    + apply I6 in P2; lia.
    + lia.
  - rewrite HL, !count_resets_app, N1.
    assert (Hc0 : count_resets post = O) by (unfold post, A; destruct (_ || _); reflexivity).
    rewrite Hc0; change (count_resets [EvResetPage h]) with 1%nat; lia.
  - intros Hleg. destruct (I10 Hleg) as (J1 & J2).
    rewrite HL, !count_acks_app, !unacked_app, N2, N3.
    unfold post, A; rewrite Hleg; simpl negb; rewrite orb_false_l.
    destruct ((readoutCounter s + 1) mod 4 =? 0) eqn:Hm; simpl.
    + apply Z.eqb_eq in Hm. unfold count_acks in *; simpl.
      split; [|rewrite Hm; reflexivity].
      rewrite !Nat2Z.inj_add, J1. simpl Z.of_nat.
      Z.div_mod_to_equations; lia.
    + apply Z.eqb_neq in Hm. unfold count_acks in *; simpl.
      rewrite !Nat.add_0_r; split; [rewrite J1|rewrite Zpos_P_of_succ_nat, J2];
        Z.div_mod_to_equations; lia.
Qed.

Lemma Inv_lowPriorityTasks (cfg : Config) (e : Env) (s : Run) :
  Inv cfg s -> Inv cfg (lowPriorityTasks e s).
Proof.
  intros HI. destruct (lowPriorityTasks_frame e s) as (F1 & F2 & F3 & F4 & _ & [F6|(m & F6 & F7 & _)]).
  - apply (Inv_frame cfg s _ []); auto. rewrite app_nil_r; exact F6.
  - apply (Inv_frame cfg s _ [m]); auto. simpl; rewrite F7; reflexivity.
Qed.

Lemma Inv_apply_hw (cfg : Config) (evs : list HwEvent) (s : Run) :
  Inv cfg s -> Inv cfg (fold_left apply_hw evs s).
Proof.
  intros HI. destruct (apply_hw_frame evs s) as (F1 & F2 & F3 & F4 & F5 & _).
  apply (Inv_frame cfg s _ []); auto. rewrite app_nil_r; exact F5.
Qed.

Lemma Inv_initRun (cfg : Config) (tbl : DescriptorTable) : Inv cfg (initRun tbl).
Proof.
  unfold Inv, initRun; simpl.
  split_and; try reflexivity; try lia; auto.
  all: first
    [ intros i n (h & Hn & _); destruct i; discriminate
    | intros i1 i2 n1 n2 (h & Hn & _); destruct i1; discriminate
    | unfold NUM_PAGES, FIFO_ENTRIES, NUM_OF_BUFFERS; lia ].
Qed.

Lemma loop_iter_stopped (cfg : Config) (e : Env) (s s' : Run) (r : StopReason) :
  loop_iter cfg e s = Stopped r s' -> s' = s.
Proof.
  unfold loop_iter. split_ifs; try (intros H; injection H; auto; fail).
  all: try (destruct (consumeFront cfg _); discriminate).
  all: discriminate.
Qed.

Lemma Inv_loop_iter (cfg : Config) (e : Env) (s s' : Run) :
  Inv cfg s -> loop_iter cfg e s = Continue s' -> Inv cfg s'.
Proof.
  intros HI. unfold loop_iter.
  destruct (negb (infinitePages cfg) && (readoutCounter s >=? maxPages cfg)); [discriminate|].
  destruct (dmaLoopBreak s); [discriminate|].
  pose proof (Inv_apply_hw cfg (envHw e) _ (Inv_fill_go (Z.to_nat NUM_PAGES) cfg _
                (Inv_lowPriorityTasks cfg e s HI))) as H3.
  fold (fillReadoutQueue cfg (lowPriorityTasks e s)) in H3.
  set (s3 := fold_left apply_hw (envHw e) (fillReadoutQueue cfg (lowPriorityTasks e s))) in *.
  destruct (readoutQueueHasPageAvailable s3) eqn:Ha.
  - destruct (consumeFront cfg s3) as [err|s4] eqn:Hc; intros H; inversion H; subst.
    unfold readoutQueueHasPageAvailable in Ha.
    destruct (queue s3) as [|h rest] eqn:Hq; [discriminate|].
    eapply Inv_consumeFront; eauto.
  - intros H; inversion H; subst; exact H3.
Qed.

Lemma reachable_Inv (cfg : Config) (tbl : DescriptorTable) (env : nat -> Env) (k : nat) (s : Run) :
  reachable cfg tbl env k s -> Inv cfg s.
Proof.
  induction 1.
  - apply Inv_fill_go, Inv_initRun.
  - eapply Inv_loop_iter; eauto.
Qed.

Lemma runLoop_add (cfg : Config) (env : nat -> Env) (a b k : nat) (s : Run) :
  runLoop cfg env (a + b) k s =
  match runLoop cfg env a k s with
  | Continue s' => runLoop cfg env b (k + a) s'
  | r => r
  end.
Proof.
  revert k s; induction a as [|a IH]; intros k s; simpl.
  - rewrite Nat.add_0_r; reflexivity.
  - destruct (loop_iter cfg (env k) s); auto.
    rewrite IH. replace (S k + a)%nat with (k + S a)%nat by lia. reflexivity.
Qed.

Lemma reachable_runLoop (cfg : Config) (tbl : DescriptorTable) (env : nat -> Env) (k : nat) (s : Run) :
  reachable cfg tbl env k s ->
  runLoop cfg env k 0 (fillReadoutQueue cfg (initRun tbl)) = Continue s.
Proof.
  induction 1 as [|k s s' Hr IH Hs].
  - reflexivity.
  - replace (S k) with (k + 1)%nat by lia.
    rewrite runLoop_add, IH; simpl. rewrite Hs; reflexivity.
Qed.

Lemma runLoop_reachable (cfg : Config) (tbl : DescriptorTable) (env : nat -> Env) (n k : nat) (s s' : Run) :
  reachable cfg tbl env k s -> runLoop cfg env n k s = Continue s' ->
  reachable cfg tbl env (k + n) s'.
Proof.
  revert k s; induction n as [|n IH]; intros k s Hr Hl; simpl in Hl.
  - injection Hl as <-; rewrite Nat.add_0_r; exact Hr.
  - destruct (loop_iter cfg (env k) s) eqn:Hs; try discriminate.
    replace (k + S n)%nat with (S k + n)%nat by lia.
    eapply IH; [|exact Hl]. econstructor; eauto.
Qed.

Lemma runLoop_stopped_reachable (cfg : Config) (tbl : DescriptorTable) (env : nat -> Env)
    (n k : nat) (s s' : Run) (r : StopReason) :
  reachable cfg tbl env k s -> runLoop cfg env n k s = Stopped r s' ->
  exists k', reachable cfg tbl env k' s'.
Proof.
  revert k s; induction n as [|n IH]; intros k s Hr Hl; simpl in Hl; [discriminate|].
  destruct (loop_iter cfg (env k) s) eqn:Hs; try discriminate.
  - eapply IH; [|exact Hl]. econstructor; eauto.
  - injection Hl as -> ->. apply loop_iter_stopped in Hs; subst; eauto.
Qed.

Lemma runDma_from_reachable (cfg : Config) (tbl : DescriptorTable) (env : nat -> Env)
    (k n : nat) (s : Run) :
  reachable cfg tbl env k s ->
  runDma cfg tbl env (k + n) =
  match runLoop cfg env n k s with
  | Stopped r s' => Finished r (outputStats s') s'
  | Thrown e => Aborted e
  | Continue s' => StillRunning s'
  end.
Proof.
  intros Hr. unfold runDma. rewrite runLoop_add, (reachable_runLoop _ _ _ _ _ Hr).
  reflexivity.
Qed.

Lemma runDma_not_InitFailed (cfg : Config) (tbl : DescriptorTable) (env : nat -> Env) (fuel : nat) (e : Error) :
  runDma cfg tbl env fuel <> InitFailed e.
Proof. unfold runDma; destruct (runLoop _ _ _ _ _); discriminate. Qed.

Lemma runDma_finished (cfg : Config) (tbl : DescriptorTable) (env : nat -> Env) (fuel : nat) :
  match final_state (runDma cfg tbl env fuel) with
  | Some (r, s) => runDma cfg tbl env fuel = Finished r (outputStats s) s
  | None => True
  end.
Proof. unfold runDma; destruct (runLoop _ _ _ _ _); simpl; auto. Qed.

Lemma fill_go_lpc (n : nat) (cfg : Config) (s : Run) :
  lowPriorityCounter (fill_go n cfg s) = lowPriorityCounter s
  /\ pushCounter s <= pushCounter (fill_go n cfg s).
Proof.
  revert s; induction n as [|n IH]; intros s; simpl; [split; [reflexivity|lia]|].
  destruct (shouldPushQueue cfg s) eqn:Hs; [|split; [reflexivity|lia]].
  destruct (IH (pushPage cfg s)) as [I1 I2]. rewrite I1.
  destruct (pushPage_frame cfg s Hs) as (_ & P2 & _). split; [reflexivity|lia].
Qed.

(** In finite mode a fill never pushes beyond the page limit. *)
Lemma fill_go_pushCounter_le (n : nat) (cfg : Config) (s : Run) :
  infinitePages cfg = false -> pushCounter s <= maxPages cfg ->
  pushCounter (fill_go n cfg s) <= maxPages cfg.
Proof.
  intros Hf; revert s; induction n as [|n IH]; intros s Hs; simpl; auto.
  destruct (shouldPushQueue cfg s) eqn:Hp; auto.
  apply IH. destruct (pushPage_frame cfg s Hp) as (_ & P2 & _).
  unfold shouldPushQueue in Hp; rewrite Hf in Hp.
  apply andb_true_iff in Hp as [Hp _]; apply andb_true_iff in Hp as [_ Hp].
  apply Z.ltb_lt in Hp. lia.
Qed.

Lemma lowPriorityTasks_frame_flags (e : Env) (s : Run) :
  envMaxExceeded e = true \/ lowPriorityCounter s < LOW_PRIORITY_INTERVAL ->
  pushEnabled (lowPriorityTasks e s) = pushEnabled s
  /\ handlingSigint (lowPriorityTasks e s) = handlingSigint s.
Proof.
  intros H; unfold lowPriorityTasks.
  destruct (lowPriorityCounter s <? LOW_PRIORITY_INTERVAL) eqn:Hl; [split; reflexivity|].
  destruct H as [H|H]; [rewrite H; split; reflexivity|apply Z.ltb_lt in H; congruence].
Qed.

(** What one iteration that goes on does: both top checks pass, and the
    result is the state after the supervisor, the fill and the card's
    writes, with the front consumed when its status entry is set. *)
Lemma loop_iter_continue (cfg : Config) (e : Env) (s s' : Run) :
  loop_iter cfg e s = Continue s' ->
  negb (infinitePages cfg) && (readoutCounter s >=? maxPages cfg) = false
  /\ dmaLoopBreak s = false
  /\ ((s' = fold_left apply_hw (envHw e) (fillReadoutQueue cfg (lowPriorityTasks e s))
       /\ readoutQueueHasPageAvailable s' = false)
      \/ exists h rest,
           queue (fold_left apply_hw (envHw e) (fillReadoutQueue cfg (lowPriorityTasks e s)))
             = h :: rest
           /\ status (fold_left apply_hw (envHw e) (fillReadoutQueue cfg (lowPriorityTasks e s)))
                (descriptorIndex h) = true
           /\ consumeFront cfg
                (fold_left apply_hw (envHw e) (fillReadoutQueue cfg (lowPriorityTasks e s)))
              = inr s').
Proof.
  unfold loop_iter.
  destruct (negb (infinitePages cfg) && (readoutCounter s >=? maxPages cfg)); [discriminate|].
  destruct (dmaLoopBreak s); [discriminate|].
  set (s3 := fold_left apply_hw (envHw e) (fillReadoutQueue cfg (lowPriorityTasks e s))).
  unfold readoutQueueHasPageAvailable.
  destruct (queue s3) as [|h rest] eqn:Hq.
  { intros H; injection H as <-. unfold readoutQueueHasPageAvailable; rewrite Hq; auto. }
  destruct (status s3 (descriptorIndex h)) eqn:Hst.
  2:{ intros H; injection H as <-. unfold readoutQueueHasPageAvailable; rewrite Hq; auto. }
  destruct (consumeFront cfg s3) eqn:Hc; [discriminate|].
  intros H; injection H as <-. split; [reflexivity|]. split; [reflexivity|].
  right; eauto.
Qed.

Lemma loop_iter_continue_flags (cfg : Config) (e : Env) (s s' : Run) :
  loop_iter cfg e s = Continue s' ->
  pushEnabled s' = pushEnabled (lowPriorityTasks e s)
  /\ dmaLoopBreak s' = dmaLoopBreak (lowPriorityTasks e s)
  /\ handlingSigint s' = handlingSigint (lowPriorityTasks e s)
  /\ lowPriorityCounter s' = lowPriorityCounter (lowPriorityTasks e s)
  /\ pushCounter s' = pushCounter (fillReadoutQueue cfg (lowPriorityTasks e s))
  /\ readoutCounter s <= readoutCounter s'.
Proof.
  intros H. destruct (loop_iter_continue cfg e s s' H) as (_ & _ & Hs).
  set (s1 := lowPriorityTasks e s) in *.
  destruct (fill_go_frame (Z.to_nat NUM_PAGES) cfg s1) as (F1 & _ & F3 & F4 & F5 & _).
  destruct (fill_go_lpc (Z.to_nat NUM_PAGES) cfg s1) as [F6 _].
  fold (fillReadoutQueue cfg s1) in *.
  destruct (apply_hw_frame (envHw e) (fillReadoutQueue cfg s1))
    as (A1 & A2 & A3 & A4 & A5 & A6 & A7 & A8 & A9).
  destruct (lowPriorityTasks_frame e s) as (_ & _ & L3 & _).
  fold s1 in L3.
  destruct Hs as [[-> _]|(h & rest & Hq & _ & Hc)].
  - split_and; congruence || lia.
  - destruct (consumeFront_spec _ _ _ _ _ Hq Hc) as (_ & C2 & C3 & _ & C5 & C6 & C7 & C8 & _).
    split_and; congruence || lia.
Qed.

Lemma loop_iter_no_throw (cfg : Config) (e : Env) (s : Run) (err : Error) :
  validator_ok cfg -> loop_iter cfg e s <> Thrown err.
Proof.
  intros Hv. unfold loop_iter.
  destruct (negb (infinitePages cfg) && (readoutCounter s >=? maxPages cfg)); [discriminate|].
  destruct (dmaLoopBreak s); [discriminate|].
  destruct (readoutQueueHasPageAvailable _); [|discriminate].
  unfold consumeFront.
  destruct (queue _) as [|h rest]; [discriminate|].
  unfold readoutPage.
  match goal with |- context [readoutCheck cfg h ?t] =>
    destruct (readoutCheck_ok cfg h t Hv) as [s2 ->] end.
  discriminate.
Qed.

Lemma reachable_lpc (cfg : Config) (tbl : DescriptorTable) (env : nat -> Env) (k : nat) (s : Run) :
  reachable cfg tbl env k s -> 0 <= lowPriorityCounter s <= LOW_PRIORITY_INTERVAL.
Proof.
  induction 1 as [|k s s' Hr IH Hs].
  - unfold fillReadoutQueue; rewrite (proj1 (fill_go_lpc _ _ _)); simpl.
    unfold LOW_PRIORITY_INTERVAL; lia.
  - destruct (loop_iter_continue_flags _ _ _ _ Hs) as (_ & _ & _ & -> & _).
    unfold lowPriorityTasks.
    destruct (lowPriorityCounter s <? LOW_PRIORITY_INTERVAL) eqn:Hl.
    + apply Z.ltb_lt in Hl; simpl; lia.
    + destruct (envMaxExceeded (env k)); [simpl; unfold LOW_PRIORITY_INTERVAL; lia|].
      destruct (envSigInt (env k)); [|simpl; unfold LOW_PRIORITY_INTERVAL; lia].
      destruct (negb (handlingSigint _)), (Nat.eqb _ 0); simpl;
        try destruct (_ >? _); simpl; unfold LOW_PRIORITY_INTERVAL; lia.
Qed.

Lemma loop_iter_break (cfg : Config) (e : Env) (s : Run) :
  dmaLoopBreak s = true -> exists r, loop_iter cfg e s = Stopped r s.
Proof.
  intros H; unfold loop_iter; rewrite H.
  destruct (negb (infinitePages cfg) && (readoutCounter s >=? maxPages cfg)); eauto.
Qed.

(** With the temperature flag up from iteration [k] on, the loop stops
    within [m + 2] iterations, where [m] is the distance of the
    low-priority counter to [LOW_PRIORITY_INTERVAL]; pushes stay enabled. *)
Lemma thermal_progress (cfg : Config) (tbl : DescriptorTable) (env : nat -> Env) (m : nat) :
  forall k s,
  reachable cfg tbl env k s -> validator_ok cfg ->
  (forall j, (k <= j)%nat -> envMaxExceeded (env j) = true) ->
  Z.to_nat (LOW_PRIORITY_INTERVAL - lowPriorityCounter s) = m ->
  exists n r s', (n <= m + 2)%nat /\ runLoop cfg env n k s = Stopped r s'
            /\ pushEnabled s' = pushEnabled s /\ handlingSigint s' = handlingSigint s
            /\ readoutCounter s <= readoutCounter s'.
Proof.
  induction m as [|m IH]; intros k s Hr Hv Ht Hm;
    pose proof (reachable_lpc _ _ _ _ _ Hr) as Hl;
    destruct (loop_iter cfg (env k) s) as [s1|r s0|err] eqn:Hs.
  - (* the check runs now: the thermal branch sets [mDmaLoopBreak] *)
    assert (Hc : lowPriorityCounter s = LOW_PRIORITY_INTERVAL) by lia.
    destruct (loop_iter_continue_flags _ _ _ _ Hs) as (F1 & F2 & F3 & _ & _ & F6).
    rewrite (lowPriorityTasks_thermal _ _ Hc (Ht k (le_n k))) in F1, F2, F3.
    simpl in F1, F2, F3.
    destruct (loop_iter_break cfg (env (S k)) s1 F2) as [r Hb].
    exists 2%nat, r, s1. split; [lia|]. split; [simpl; rewrite Hs, Hb; reflexivity|].
    split_and; congruence || lia.
  - assert (s0 = s) by (eapply loop_iter_stopped; eauto); subst s0. exists 1%nat, r, s.
    split; [lia|]. split; [simpl; rewrite Hs; reflexivity|]. split_and; reflexivity || lia.
  - exfalso; eapply loop_iter_no_throw; eauto.
  - (* the counter is still below the interval: it advances by one *)
    assert (Hc : lowPriorityCounter s < LOW_PRIORITY_INTERVAL) by lia.
    destruct (loop_iter_continue_flags _ _ _ _ Hs) as (F1 & _ & F3 & F4 & _ & F6).
    destruct (lowPriorityTasks_frame_flags (env k) s (or_intror Hc)) as [P1 P3].
    assert (Hn : lowPriorityCounter s1 = lowPriorityCounter s + 1).
    { rewrite F4; unfold lowPriorityTasks. apply Z.ltb_lt in Hc; rewrite Hc; reflexivity. }
    destruct (IH (S k) s1 (reach_step _ _ _ _ _ _ Hr Hs) Hv
                (fun j Hj => Ht j ltac:(lia)) ltac:(lia))
      as (n & r & s' & Hn' & Hrun & G1 & G2 & G3).
    exists (S n), r, s'. split; [lia|]. split; [simpl; rewrite Hs; exact Hrun|].
    split_and; congruence || lia.
  - assert (s0 = s) by (eapply loop_iter_stopped; eauto); subst s0. exists 1%nat, r, s.
    split; [lia|]. split; [simpl; rewrite Hs; reflexivity|]. split_and; reflexivity || lia.
  - exfalso; eapply loop_iter_no_throw; eauto.
Qed.

Lemma fill_go_exhausts (n : nat) (cfg : Config) (s : Run) :
  (NUM_PAGES <= Z.of_nat (length (queue s)) + Z.of_nat n)%Z ->
  shouldPushQueue cfg (fill_go n cfg s) = false.
Proof.
  revert s; induction n as [|n IH]; intros s Hn; simpl.
  - destruct (shouldPushQueue cfg s) eqn:Hs; auto.
    apply shouldPush_length in Hs; lia.
  - destruct (shouldPushQueue cfg s) eqn:Hs; auto.
    apply IH. destruct (pushPage_frame cfg s Hs) as (H1 & _).
    rewrite H1, length_app; simpl; lia.
Qed.

Lemma fillReadoutQueue_exhausts (cfg : Config) (s : Run) :
  shouldPushQueue cfg (fillReadoutQueue cfg s) = false.
Proof. apply fill_go_exhausts. rewrite Z2Nat.id; [lia|discriminate]. Qed.

Lemma reachable_sample (cfg : Config) (env : nat -> Env) (n : nat) :
  is_continue (runLoop cfg env n 0 (sample_start cfg)) = true ->
  reachable cfg uninitialisedTable env n (state_after cfg env n).
Proof.
  unfold state_after. destruct (runLoop cfg env n 0 (sample_start cfg)) as [s| |] eqn:E;
    try discriminate; intros _.
  apply (runLoop_reachable cfg uninitialisedTable env n 0 _ s (reach_init _ _ _) E).
Qed.

(** ** Draining a finite run *)

Lemma Inv_front (cfg : Config) (s : Run) (h : Handle) (rest : list Handle) :
  Inv cfg s -> queue s = h :: rest ->
  hSeq h = readoutCounter s /\ descriptorIndex h = readoutCounter s mod NUM_PAGES.
Proof.
  intros (_ & I2 & I3 & _) Hq. rewrite Hq in I2, I3.
  destruct (Z.to_nat (pushCounter s - readoutCounter s)); simpl in I2; [discriminate|].
  injection I2 as E _. inversion I3; subst. split; congruence.
Qed.

Lemma Inv_nonempty (cfg : Config) (s : Run) :
  Inv cfg s -> readoutCounter s < pushCounter s -> exists h rest, queue s = h :: rest.
Proof.
  intros (I1 & I2 & _) Hlt.
  destruct (queue s) as [|h rest] eqn:Hq; eauto.
  simpl in I2. destruct (Z.to_nat (pushCounter s - readoutCounter s)) eqn:E; [lia|discriminate].
Qed.

Lemma Inv_empty (cfg : Config) (s : Run) :
  Inv cfg s -> readoutCounter s = pushCounter s -> queue s = [].
Proof.
  intros (_ & I2 & _) He. rewrite He, Z.sub_diag in I2. simpl in I2.
  destruct (queue s); [reflexivity|discriminate].
Qed.

Lemma Inv_length (cfg : Config) (s : Run) :
  Inv cfg s -> length (queue s) = Z.to_nat (pushCounter s - readoutCounter s).
Proof.
  intros (_ & I2 & _). rewrite <- (length_map hSeq), I2. apply zseq_length.
Qed.

Lemma loop_iter_running (cfg : Config) (e : Env) (s s' : Run) (r : StopReason) :
  negb (infinitePages cfg) && (readoutCounter s >=? maxPages cfg) = false ->
  dmaLoopBreak s = false -> loop_iter cfg e s <> Stopped r s'.
Proof.
  intros H1 H2; unfold loop_iter; rewrite H1, H2.
  destruct (readoutQueueHasPageAvailable _); [destruct (consumeFront _ _)|]; discriminate.
Qed.

(** A quiet iteration of a finite run that has pushed all its pages: the
    supervisor only advances its counter, the fill pushes nothing. *)
Lemma quiet_iter (cfg : Config) (e : Env) (s s' : Run) :
  quiet_env e -> 0 < maxPages cfg -> pushCounter s = maxPages cfg ->
  loop_iter cfg e s = Continue s' ->
  readoutCounter s < maxPages cfg
  /\ exists c s3, s3 = fold_left apply_hw (envHw e) (set_lowPriorityCounter c s)
     /\ ((s' = s3 /\ readoutQueueHasPageAvailable s' = false)
         \/ exists h rest, queue s3 = h :: rest /\ status s3 (descriptorIndex h) = true
                      /\ consumeFront cfg s3 = inr s').
Proof.
  intros [Q1 Q2] Hm Hp Hs.
  destruct (loop_iter_continue cfg e s s' Hs) as (T1 & _ & T3).
  unfold infinitePages in T1. replace (maxPages cfg <=? 0) with false in T1
    by (symmetry; apply Z.leb_gt; lia).
  simpl in T1. split; [rewrite Z.geb_leb in T1; apply Z.leb_gt in T1; lia|].
  rewrite (lowPriorityTasks_quiet e s Q1 Q2) in T3.
  set (c := if lowPriorityCounter s <? LOW_PRIORITY_INTERVAL then lowPriorityCounter s + 1 else 0) in T3.
  unfold fillReadoutQueue in T3. rewrite fill_go_stops in T3.
  - eexists c, _; split; [reflexivity|exact T3].
  - unfold shouldPushQueue, infinitePages; simpl.
    replace (maxPages cfg <=? 0) with false by (symmetry; apply Z.leb_gt; lia).
    rewrite Hp, Z.ltb_irrefl, andb_false_r. reflexivity.
Qed.

Lemma drain_init (cfg : Config) (tbl : DescriptorTable) (env : nat -> Env) :
  0 < maxPages cfg <= NUM_PAGES ->
  drain_inv cfg env 0 (fillReadoutQueue cfg (initRun tbl)).
Proof.
  intros Hm.
  pose proof (Inv_fill_go (Z.to_nat NUM_PAGES) cfg _ (Inv_initRun cfg tbl)) as HI.
  fold (fillReadoutQueue cfg (initRun tbl)) in HI.
  destruct (fill_go_frame (Z.to_nat NUM_PAGES) cfg (initRun tbl)) as (F1 & _ & F3 & F4 & _).
  fold (fillReadoutQueue cfg (initRun tbl)) in F1, F3, F4. simpl in F1, F3, F4.
  assert (Hinf : infinitePages cfg = false) by (apply Z.leb_gt; lia).
  pose proof (fill_go_pushCounter_le (Z.to_nat NUM_PAGES) cfg (initRun tbl) Hinf
                ltac:(simpl; lia)) as Hle.
  fold (fillReadoutQueue cfg (initRun tbl)) in Hle.
  pose proof (fillReadoutQueue_exhausts cfg (initRun tbl)) as Hx.
  pose proof (Inv_length _ _ HI) as Hl.
  set (s0 := fillReadoutQueue cfg (initRun tbl)) in *.
  unfold shouldPushQueue in Hx. rewrite Hinf, F3, Hl, F1, Z.sub_0_r in Hx. simpl in Hx.
  rewrite andb_true_r in Hx.
  assert (Hp : pushCounter s0 = maxPages cfg).
  { destruct HI as ((I1 & _) & _). rewrite F1 in I1.
    apply andb_false_iff in Hx as [Hx|Hx]; [apply Z.ltb_ge in Hx|apply Z.ltb_ge in Hx];
      rewrite ?Z2Nat.id in Hx by lia; lia. }
  unfold drain_inv; split_and; auto. intros d k' _ Hk'; lia.
Qed.

Lemma drain_step (cfg : Config) (tbl : DescriptorTable) (env : nat -> Env) (k : nat) (s s' : Run) :
  (forall j, quiet_env (env j)) -> 0 < maxPages cfg <= NUM_PAGES ->
  reachable cfg tbl env k s -> drain_inv cfg env k s ->
  loop_iter cfg (env k) s = Continue s' ->
  drain_inv cfg env (S k) s' /\ readoutCounter s <= readoutCounter s'
  /\ ((exists k', (k' <= k)%nat /\ In (HwArrive (readoutCounter s)) (envHw (env k'))) ->
      readoutCounter s' = readoutCounter s + 1).
Proof.
  intros Hq Hm Hr (D1 & D2 & D3 & D4) Hs.
  pose proof (reachable_Inv _ _ _ _ _ Hr) as HI.
  destruct (quiet_iter cfg (env k) s s' (Hq k) ltac:(lia) D1 Hs) as (Hlt & c & s3 & E3 & Hc).
  destruct (apply_hw_frame (envHw (env k)) (set_lowPriorityCounter c s))
    as (A1 & A2 & A3 & _ & _ & A6 & A7 & _).
  rewrite <- E3 in A1, A2, A3, A6, A7. simpl in A1, A2, A3, A6, A7.
  assert (Hst : forall d, readoutCounter s <= d < maxPages cfg ->
                 (exists k', (k' <= k)%nat /\ In (HwArrive d) (envHw (env k'))) ->
                 status s3 d = true).
  { intros d Hd (k' & Hk' & Hin). rewrite E3. apply apply_hw_status.
    destruct (Nat.eq_dec k' k) as [->|Hne]; [right; exact Hin|].
    left; simpl. apply (D4 d k'); auto; lia. }
  assert (Hr0 : 0 <= readoutCounter s) by apply HI.
  destruct (Inv_nonempty cfg s HI ltac:(lia)) as (h & rest & Hqs).
  destruct (Inv_front cfg s h rest HI Hqs) as [Hh Hd].
  rewrite Z.mod_small in Hd by (unfold NUM_PAGES, FIFO_ENTRIES, NUM_OF_BUFFERS in *; lia).
  destruct Hc as [[-> Ha] | (h' & rest' & Hq3 & Hst3 & Hcf)].
  - (* nothing consumed: the front has not arrived yet *)
    split; [|split; [lia|]].
    + unfold drain_inv; split_and; try congruence.
      intros d k' Hd' Hk' Hin. rewrite A3 in Hd'.
      apply Hst; [lia|exists k'; split; [lia|exact Hin]].
    + intros Harr. exfalso. unfold readoutQueueHasPageAvailable in Ha.
      rewrite A1, Hqs, Hd, (Hst (readoutCounter s) ltac:(lia) Harr) in Ha. discriminate.
  - (* the front is read out *)
    rewrite A1, Hqs in Hq3. injection Hq3 as <- <-.
    rewrite <- A1 in Hqs.
    destruct (consumeFront_spec cfg s3 s' h rest Hqs Hcf)
      as (C1 & C2 & C3 & _ & C5 & C6 & _ & _ & C9 & _).
    split; [|split; lia].
    unfold drain_inv; split_and; try congruence.
    intros d k' Hd' Hk' Hin. rewrite C9, Hd.
    destruct (d =? readoutCounter s) eqn:Heq; [apply Z.eqb_eq in Heq; lia|].
    apply Hst; [lia|exists k'; split; [lia|exact Hin]].
Qed.

Lemma drain_done (cfg : Config) (tbl : DescriptorTable) (env : nat -> Env) (k : nat) (s : Run) :
  0 < maxPages cfg -> reachable cfg tbl env k s -> drain_inv cfg env k s ->
  (readoutCounter s >=? maxPages cfg) = true ->
  loop_iter cfg (env k) s = Stopped StopPageLimit s
  /\ readoutCounter s = maxPages cfg /\ pushCounter s = maxPages cfg /\ queue s = [].
Proof.
  intros Hm Hr (D1 & _) Hge.
  pose proof (reachable_Inv _ _ _ _ _ Hr) as HI.
  assert (Hinf : infinitePages cfg = false) by (apply Z.leb_gt; lia).
  assert (Hr5 : readoutCounter s = maxPages cfg)
    by (destruct HI as ((I0 & I1) & _); apply Z.geb_le in Hge; lia).
  split; [unfold loop_iter; rewrite Hinf, Hge; reflexivity|].
  split; [exact Hr5|]. split; [exact D1|]. apply (Inv_empty cfg s HI); lia.
Qed.

(** A finite run whose pages all arrive by iteration [M] reaches its page
    limit: the measure counts the iterations left to [M] and the pages
    left to read. *)
Lemma drain_progress (cfg : Config) (tbl : DescriptorTable) (env : nat -> Env) (M : nat) :
  (forall j, quiet_env (env j)) -> 0 < maxPages cfg <= NUM_PAGES -> validator_ok cfg ->
  (forall d, 0 <= d < maxPages cfg -> exists k', (k' <= M)%nat /\ In (HwArrive d) (envHw (env k'))) ->
  forall n k s, reachable cfg tbl env k s -> drain_inv cfg env k s ->
  ((M + 1 - k) + Z.to_nat (maxPages cfg - readoutCounter s) <= n)%nat ->
  exists fuel s', runLoop cfg env fuel k s = Stopped StopPageLimit s'
    /\ readoutCounter s' = maxPages cfg /\ pushCounter s' = maxPages cfg /\ queue s' = [].
Proof.
  intros Hq Hm Hv Harr n. induction n as [|n IH]; intros k s Hr HD Hn;
    pose proof (reachable_Inv _ _ _ _ _ Hr) as HI;
    assert (Hinf : infinitePages cfg = false) by (apply Z.leb_gt; lia);
    (destruct (readoutCounter s >=? maxPages cfg) eqn:Hge;
     [destruct (drain_done cfg tbl env k s ltac:(lia) Hr HD Hge) as (L & R);
      exists 1%nat, s; simpl; rewrite L; split; [reflexivity|exact R]|]);
    rewrite Z.geb_leb in Hge; apply Z.leb_gt in Hge.
  - lia.
  - destruct (loop_iter cfg (env k) s) as [s1|r s0|err] eqn:Hs.
    + destruct (drain_step cfg tbl env k s s1 Hq Hm Hr HD Hs) as (HD1 & Hle & Hprog).
      assert (Hmeas : ((M + 1 - S k) + Z.to_nat (maxPages cfg - readoutCounter s1) <= n)%nat).
      { destruct (le_lt_dec k M) as [HkM|HkM]; [lia|].
        assert (Hr0 : 0 <= readoutCounter s) by apply HI.
        destruct (Harr (readoutCounter s) ltac:(lia)) as (k' & Hk' & Hin).
        rewrite Hprog by (exists k'; split; [lia|exact Hin]). lia. }
      destruct (IH (S k) s1 (reach_step _ _ _ _ _ _ Hr Hs) HD1 Hmeas) as (fuel & s' & Hrun & R).
      exists (S fuel), s'. simpl; rewrite Hs; split; [exact Hrun|exact R].
    + exfalso; eapply loop_iter_running; [| |exact Hs].
      * rewrite Hinf; simpl; rewrite Z.geb_leb; apply Z.leb_gt; exact Hge.
      * apply HD.
    + exfalso; eapply loop_iter_no_throw; eauto.
Qed.

(** * Claims *)

(** C1: in every reachable state of the loop (any options, any behaviour
    of the card and of the signals) the readout queue holds at most
    [NUM_PAGES = FIFO_ENTRIES * NUM_OF_BUFFERS = 128] handles, also at
    every point of [fillReadoutQueue]; a push happens only when
    [shouldPushQueue] holds, which requires fewer than [NUM_PAGES] handles. *)
Theorem readout_queue_within_capacity (cfg : Config) (tbl : DescriptorTable) (env : nat -> Env)
    (k : nat) (s : Run) :
  reachable cfg tbl env k s ->
  NUM_PAGES = FIFO_ENTRIES * NUM_OF_BUFFERS /\ NUM_PAGES = 128
  /\ Z.of_nat (length (queue s)) <= NUM_PAGES
  /\ (forall e n, Z.of_nat (length (queue (fill_go n cfg (lowPriorityTasks e s)))) <= NUM_PAGES)
  /\ (forall s', shouldPushQueue cfg s' = true -> Z.of_nat (length (queue s')) < NUM_PAGES).
Proof.
  intros Hr. pose proof (reachable_Inv _ _ _ _ _ Hr) as HI.
  split; [reflexivity|]. split; [reflexivity|].
  split; [apply HI|].
  split; [|apply shouldPush_length].
  intros e n. apply (Inv_fill_go n cfg _ (Inv_lowPriorityTasks cfg e s HI)).
Qed.

Lemma readout_queue_within_capacity_witness :
  Z.of_nat (length (queue (sample_start (sample_cfg 0 false)))) <= NUM_PAGES.
Proof.
  destruct (readout_queue_within_capacity (sample_cfg 0 false) uninitialisedTable sample_env 0
              (sample_start (sample_cfg 0 false)) (reach_init _ _ _)) as (_ & _ & H & _).
  exact H.
Defined.

(** C2 (counterexample): one consumption in per-page mode ends with the
    acknowledgment and the pop; the counter increment comes before them. *)
Lemma consume_order_counterexample :
  match consumeFront (sample_cfg 1 false)
          (set_status (fun _ => true) (sample_start (sample_cfg 1 false))) with
  | inr s' => log s' = [EvPush (mkHandle 0 0 0); EvResetPage (mkHandle 0 0 0); EvResetStatus 0;
                        EvIncrementCounters; EvAcknowledge; EvPop (mkHandle 0 0 0)]
  | inl _ => False
  end.
Proof. vm_compute. reflexivity. Qed.

(** C2 (amended): consuming the front handle [h] appends, in this order:
    the file output (if enabled), the validation (if enabled), the page
    reset, the status-entry clear, the counter increments
    ([mDataGeneratorCounter], [mReadoutCounter]), the acknowledgment (always
    in per-page mode, in legacy mode only when the incremented counter is a
    multiple of 4), and the pop. Afterwards the page holds the sentinel
    value, its status entry is clear, [readoutCounter] is one higher and
    the queue is its tail. *)
Theorem consume_order (cfg : Config) (s s' : Run) (h : Handle) (rest : list Handle) :
  queue s = h :: rest ->
  consumeFront cfg s = inr s' ->
  log s' = log s
       ++ (if fileOutput cfg then [EvPrintToFile h] else [])
       ++ (if checkError cfg then [EvCheckErrors h] else [])
       ++ [EvResetPage h; EvResetStatus (descriptorIndex h); EvIncrementCounters]
       ++ (if negb (legacyAck cfg) || ((readoutCounter s + 1) mod 4 =? 0)
           then [EvAcknowledge] else [])
       ++ [EvPop h]
  /\ (forall i, 0 <= i < DMA_PAGE_SIZE_32 -> memory s' (pageIndex h) i = BUFFER_DEFAULT_VALUE)
  /\ status s' (descriptorIndex h) = false
  /\ readoutCounter s' = readoutCounter s + 1
  /\ queue s' = rest.
Proof.
  intros Hq Hc.
  destruct (consumeFront_spec cfg s s' h rest Hq Hc)
    as (C1 & C2 & _ & _ & _ & _ & _ & _ & C9 & C10 & C11).
  split_and; auto. rewrite C9, Z.eqb_refl; reflexivity.
Qed.

Lemma consume_order_witness :
  exists s', consumeFront (sample_cfg 1 false)
               (set_status (fun _ => true) (sample_start (sample_cfg 1 false))) = inr s'
          /\ readoutCounter s' = 1.
Proof.
  destruct (consumeFront (sample_cfg 1 false)
              (set_status (fun _ => true) (sample_start (sample_cfg 1 false)))) as [e|s'] eqn:Hc.
  - vm_compute in Hc; discriminate.
  - exists s'; split; [reflexivity|].
    destruct (consume_order (sample_cfg 1 false)
                (set_status (fun _ => true) (sample_start (sample_cfg 1 false))) s'
                (mkHandle 0 0 0) [] ltac:(vm_compute; reflexivity) Hc) as (_ & _ & _ & H & _).
    rewrite H; vm_compute; reflexivity.
Defined.

(** C3: acknowledgments follow push order. In every reachable state, if an
    acknowledgment at log position [j] comes after the readout of the
    [n2]-th pushed page, it also comes after the readout of every
    earlier-pushed page [n1]: no page is acknowledged while an earlier one
    is not. This holds for both acknowledgment modes. *)
Theorem acks_in_push_order (cfg : Config) (tbl : DescriptorTable) (env : nat -> Env)
    (k : nat) (s : Run) (n1 n2 : Z) (j : nat) :
  reachable cfg tbl env k s ->
  0 <= n1 < n2 ->
  acked_by (log s) n2 j ->
  acked_by (log s) n1 j.
Proof.
  intros Hr Hn (i2 & Hp2 & Hij & Hj).
  destruct (reachable_Inv _ _ _ _ _ Hr) as (_ & _ & _ & _ & _ & I6 & I7 & I8 & _).
  destruct (I6 _ _ Hp2) as [_ Hlt].
  destruct (I7 n1 ltac:(lia)) as [i1 Hp1].
  exists i1; split; [exact Hp1|]. split; [|exact Hj].
  pose proof (I8 _ _ _ _ Hp1 Hp2 ltac:(lia)); lia.
Qed.

Lemma acks_in_push_order_witness :
  acked_by (log (state_after (sample_cfg 5 false) sample_env 2)) 0 13.
Proof.
  apply (acks_in_push_order (sample_cfg 5 false) uninitialisedTable sample_env 2
           (state_after (sample_cfg 5 false) sample_env 2) 0 1 13).
  - apply reachable_sample; vm_compute; reflexivity.
  - lia.
  - exists 10%nat; split; [|split; [lia|vm_compute; reflexivity]].
    exists (mkHandle 1 1 1); split; vm_compute; reflexivity.
Defined.

(** C5: the program stops with [InsufficientPages], before the loop and
    before any push, exactly when the page count is at most [NUM_PAGES].
    With more pages [initFifo] succeeds and initialisation goes on past it:
    the program does not stop with [InsufficientPages]; it goes on to
    [runDma] with the table [initFifo] built when the FIFO bus address is
    aligned, and stops with [initCard]'s alignment error otherwise. *)
Theorem insufficient_pages_iff (cfg : Config) (fifoBus : Z) (env : nat -> Env) (fuel : nat) :
  (runProgram cfg fifoBus env fuel = InitFailed InsufficientPages
   <-> Z.of_nat (length (pageAddresses cfg)) <= NUM_PAGES)
  /\ (NUM_PAGES < Z.of_nat (length (pageAddresses cfg)) ->
      exists tbl, initFifo (pageAddresses cfg) = inr tbl
        /\ runProgram cfg fifoBus env fuel <> InitFailed InsufficientPages
        /\ (checkAlignment fifoBus DMA_ALIGNMENT = true ->
            runProgram cfg fifoBus env fuel = runDma cfg tbl env fuel)
        /\ (checkAlignment fifoBus DMA_ALIGNMENT = false ->
            runProgram cfg fifoBus env fuel = InitFailed FifoNotAligned)).
Proof.
  unfold runProgram, initFifo.
  destruct (Z.of_nat (length (pageAddresses cfg)) <=? NUM_PAGES) eqn:Hl.
  - apply Z.leb_le in Hl. split; [tauto|intros; lia].
  - apply Z.leb_gt in Hl.
    destruct (checkAlignment fifoBus DMA_ALIGNMENT) eqn:Ha; simpl.
    + split.
      * split; [intros H; exfalso; eapply runDma_not_InitFailed; exact H|lia].
      * intros _; eexists; split_and; [reflexivity| |reflexivity|discriminate].
        intros H; eapply runDma_not_InitFailed; exact H.
    + split.
      * split; [discriminate|lia].
      * intros _; eexists; split_and; [reflexivity|discriminate|discriminate|reflexivity].
Qed.

(** C6 (counterexample): with [isVerbose()] false the mismatch of word 8
    is counted but no error line is recorded. *)
Lemma incremental_check_counterexample :
  checkErrors false Incremental mismatch_page 0 0 100 (mkValidatorState 0 [])
  = inr (true, mkValidatorState 1 []).
Proof. vm_compute. reflexivity. Qed.

(** C6 (amended): incremental pattern, counter 100. A page holding
    [100 + i/8] at every checked offset [i] (whatever its other words)
    passes and leaves the validator state unchanged. The same page with
    word 8 set to 999 fails at that word: [mErrorCount] grows by exactly
    one, and an error line with offset 8, expected 101 and actual 999 is
    recorded only in verbose mode while the new count is below
    [MAX_RECORDED_ERRORS]. *)
Theorem incremental_check_seed_100 (verbose : bool) (page : Page) (pidx ev ec : Z)
    (es : list ErrorRecord) :
  incremental_page_on_stride 100 page ->
  checkErrors verbose Incremental page pidx ev 100 (mkValidatorState ec es)
  = inr (false, mkValidatorState ec es)
  /\ checkErrors verbose Incremental (upd page 8 999) pidx ev 100 (mkValidatorState ec es)
     = inr (true, mkValidatorState (ec + 1)
                    (if verbose && (ec + 1 <? MAX_RECORDED_ERRORS)
                     then es ++ [mkErrorRecord ev pidx 8 101 999] else es)).
Proof.
  intros Hp. split.
  - unfold checkErrors. rewrite check_incremental_ok; [reflexivity|lia|lia|exact Hp].
  - assert (H0 : page 0 = 100) by (apply (Hp 0); lia).
    assert (H : check_loop check_iterations (fun i => u32 (100 + i / 8)) (upd page 8 999) 0
                = Some (8, 101, 999)).
    { rewrite check_iterations_eq. cbn [check_loop]. unfold upd.
      change (0 <? DMA_PAGE_SIZE_32) with true. change (0 =? 8) with false. cbv iota.
      rewrite H0. reflexivity. }
    unfold checkErrors, check; rewrite H; reflexivity.
Qed.

Lemma incremental_check_seed_100_witness :
  checkErrors true Incremental (fun i => 100 + i / 8 + (i mod 8) * 1000) 3 7 100
    (mkValidatorState 0 []) = inr (false, mkValidatorState 0 []).
Proof.
  destruct (incremental_check_seed_100 true (fun i => 100 + i / 8 + (i mod 8) * 1000) 3 7 0 [])
    as [H _].
  - intros k Hk. rewrite (Z.mul_comm 8 k), Z.div_mul, Z.mod_mul by lia. lia.
  - exact H.
Defined.

(** C7: [checkErrors] throws exactly for a pattern outside
    incremental, alternating and constant; for those it returns, whatever
    the page. *)
Theorem checkErrors_throws_iff_unrecognized (verbose : bool) (pattern : GeneratorPattern)
    (page : Page) (pageIdx eventNumber counter : Z) (vs : ValidatorState) :
  ((exists e, checkErrors verbose pattern page pageIdx eventNumber counter vs = inl e)
   <-> is_recognized pattern = false)
  /\ ((exists r, checkErrors verbose pattern page pageIdx eventNumber counter vs = inr r)
      <-> is_recognized pattern = true).
Proof.
  destruct pattern; simpl; split; split; intros H;
    try discriminate; try (destruct H; discriminate); eauto.
Qed.

(** C9: for a 64-byte header whose little-endian word 3 is [0x00001234],
    [getLinkId] is [0x34] and [getPacketCounter] is [0x12]; both read
    only the bytes 12 to 15 of the header. *)
Theorem header_word3_fields (data : list byte) :
  length data = 64%nat ->
  DataFormat.getWord data 3 = 4660 (* 0x00001234 *) ->
  DataFormat.getLinkId data = 52 (* 0x34 *)
  /\ DataFormat.getPacketCounter data = 18 (* 0x12 *)
  /\ (forall d1 d2 : list byte,
        (forall k, (12 <= k < 16)%nat -> nth_error d1 k = nth_error d2 k) ->
        DataFormat.getLinkId d1 = DataFormat.getLinkId d2
        /\ DataFormat.getPacketCounter d1 = DataFormat.getPacketCounter d2).
Proof.
  intros _ Hw. unfold DataFormat.getLinkId, DataFormat.getPacketCounter.
  rewrite Hw. split; [reflexivity|]. split; [reflexivity|].
  intros d1 d2 Hd. rewrite (getWord3_depends_on_12_15 d1 d2 Hd). split; reflexivity.
Qed.

Lemma header_word3_fields_witness :
  DataFormat.getLinkId sample_header = 52 /\ DataFormat.getPacketCounter sample_header = 18.
Proof.
  destruct (header_word3_fields sample_header) as (H1 & H2 & _);
    [reflexivity|vm_compute; reflexivity|].
  split; assumption.
Defined.

(** C10: legacy acknowledgment. Consuming a page sends an acknowledgment
    exactly when the incremented [readoutCounter] is a multiple of 4. In
    every state of the loop, and when the loop has exited, [r] pages read
    out have received [r / 4] acknowledgments and the last [r mod 4]
    readouts are not followed by any acknowledgment. *)
Theorem legacy_ack_every_fourth (cfg : Config) :
  legacyAck cfg = true ->
  (forall s s' h rest, queue s = h :: rest -> consumeFront cfg s = inr s' ->
     readoutCounter s' = readoutCounter s + 1
     /\ count_acks (log s') =
        Nat.add (count_acks (log s)) (if readoutCounter s' mod 4 =? 0 then 1%nat else 0%nat))
  /\ (forall tbl env k s, reachable cfg tbl env k s ->
        Z.of_nat (count_acks (log s)) = readoutCounter s / 4
        /\ Z.of_nat (unacked (log s)) = readoutCounter s mod 4)
  /\ (forall tbl env fuel r sm s, runDma cfg tbl env fuel = Finished r sm s ->
        sumPages sm = readoutCounter s
        /\ Z.of_nat (count_acks (log s)) = readoutCounter s / 4
        /\ Z.of_nat (unacked (log s)) = readoutCounter s mod 4).
Proof.
  intros Hleg.
  assert (Hreach : forall tbl env k s, reachable cfg tbl env k s ->
            Z.of_nat (count_acks (log s)) = readoutCounter s / 4
            /\ Z.of_nat (unacked (log s)) = readoutCounter s mod 4).
  { intros tbl env k s Hr. destruct (reachable_Inv _ _ _ _ _ Hr) as (_ & _ & _ & _ & _ & _ & _ & _ & _ & I).
    exact (I Hleg). }
  split; [|split; [exact Hreach|]].
  - intros s s' h rest Hq Hc.
    destruct (consumeFront_spec cfg s s' h rest Hq Hc) as (_ & R & _ & _ & _ & _ & _ & _ & _ & _ & L).
    split; [exact R|]. rewrite L, R, Hleg; simpl negb; rewrite orb_false_l.
    rewrite !count_acks_app.
    destruct (fileOutput cfg), (checkError cfg), ((readoutCounter s + 1) mod 4 =? 0);
      cbn; lia.
  - intros tbl env fuel r sm s H. unfold runDma in H.
    destruct (runLoop cfg env fuel 0 (fillReadoutQueue cfg (initRun tbl))) eqn:E;
      try discriminate.
    injection H as <- <- <-.
    destruct (runLoop_stopped_reachable cfg tbl env fuel 0 _ _ _ (reach_init _ _ _) E) as [k' Hk].
    split; [reflexivity|exact (Hreach _ _ _ _ Hk)].
Qed.

Lemma legacy_ack_every_fourth_witness :
  exists s, runDma (sample_cfg 5 true) uninitialisedTable sample_env 10
            = Finished StopPageLimit (outputStats s) s
         /\ readoutCounter s = 5
         /\ Z.of_nat (count_acks (log s)) = 1 /\ Z.of_nat (unacked (log s)) = 1.
Proof.
  destruct (legacy_ack_every_fourth (sample_cfg 5 true) eq_refl) as (_ & _ & Hfin).
  pose proof (runDma_finished (sample_cfg 5 true) uninitialisedTable sample_env 10) as E.
  assert (C : option_map (fun rs => (fst rs, readoutCounter (snd rs)))
                (final_state (runDma (sample_cfg 5 true) uninitialisedTable sample_env 10))
              = Some (StopPageLimit, 5)) by (vm_compute; reflexivity).
  destruct (final_state (runDma (sample_cfg 5 true) uninitialisedTable sample_env 10))
    as [[r s]|]; [|discriminate].
  injection C as -> R. exists s.
  destruct (Hfin _ _ _ _ _ _ E) as (_ & A & U).
  rewrite A, U, R. split; [exact E|]. split; [reflexivity|]. split; reflexivity.
Defined.

(** C8: once the temperature monitor's flag is up (from iteration [k] on),
    the loop stops at the next low-priority check, within
    [LOW_PRIORITY_INTERVAL + 2] iterations whatever the clock and the queue:
    no drain and no timeout is waited for. Pushes are not disabled on the
    way and SIGINT handling is not entered; [runDma] still ends with the
    statistics, whose page count is the number of pages read out, at least
    as many as before the flag. *)
Theorem thermal_abort_stops (cfg : Config) (tbl : DescriptorTable) (env : nat -> Env)
    (k : nat) (s : Run) :
  reachable cfg tbl env k s ->
  validator_ok cfg ->
  (forall j, (k <= j)%nat -> envMaxExceeded (env j) = true) ->
  exists n r s', (n <= Z.to_nat LOW_PRIORITY_INTERVAL + 2)%nat
    /\ runDma cfg tbl env (k + n) = Finished r (outputStats s') s'
    /\ pushEnabled s' = pushEnabled s
    /\ handlingSigint s' = handlingSigint s
    /\ sumPages (outputStats s') = readoutCounter s'
    /\ readoutCounter s' = Z.of_nat (count_resets (log s'))
    /\ readoutCounter s <= readoutCounter s'.
Proof.
  intros Hr Hv Ht.
  pose proof (reachable_lpc _ _ _ _ _ Hr) as Hl.
  destruct (thermal_progress cfg tbl env _ k s Hr Hv Ht eq_refl)
    as (n & r & s' & Hn & Hrun & G1 & G2 & G3).
  exists n, r, s'. split; [lia|].
  rewrite (runDma_from_reachable _ _ _ _ n _ Hr), Hrun. split; [reflexivity|].
  destruct (runLoop_stopped_reachable _ _ _ _ _ _ _ _ Hr Hrun) as [k' Hk'].
  destruct (reachable_Inv _ _ _ _ _ Hk') as (_ & _ & _ & _ & _ & _ & _ & _ & I9 & _).
  split_and; auto.
Qed.

Lemma thermal_abort_stops_witness :
  envMaxExceeded (thermal_env 9) = false
  /\ 0 < readoutCounter (state_after (sample_cfg 0 false) thermal_env 10)
  /\ exists n r s', (n <= Z.to_nat LOW_PRIORITY_INTERVAL + 2)%nat
    /\ runDma (sample_cfg 0 false) uninitialisedTable thermal_env (10 + n)
       = Finished r (outputStats s') s'
    /\ readoutCounter (state_after (sample_cfg 0 false) thermal_env 10) <= sumPages (outputStats s').
Proof.
  split; [reflexivity|].
  split; [vm_compute; reflexivity|].
  destruct (thermal_abort_stops (sample_cfg 0 false) uninitialisedTable thermal_env 10
              (state_after (sample_cfg 0 false) thermal_env 10)
              (reachable_sample (sample_cfg 0 false) thermal_env 10 ltac:(vm_compute; reflexivity)) (or_introl eq_refl)
              (fun j Hj => proj2 (Nat.leb_le 10 j) Hj))
    as (n & r & s' & H1 & H2 & _ & _ & H5 & _ & H7).
  exists n, r, s'. split; [exact H1|]. split; [exact H2|]. rewrite H5; exact H7.
Defined.

(** C4: with a page limit of 5, no temperature or SIGINT flag, a validator
    that cannot throw, and each of the descriptors 0 to 4 completed by the
    card at some iteration, the loop of [runDma] ends through the page-limit
    check ("Maximum amount of pages reached"), never the SIGINT path, with
    exactly 5 pages pushed, [readoutCounter = 5] and the queue empty. *)
Theorem page_limit_drain (cfg : Config) (tbl : DescriptorTable) (env : nat -> Env) :
  maxPages cfg = 5 ->
  validator_ok cfg ->
  (forall k, quiet_env (env k)) ->
  (forall d, 0 <= d < 5 -> exists k, In (HwArrive d) (envHw (env k))) ->
  exists fuel s, runDma cfg tbl env fuel = Finished StopPageLimit (outputStats s) s
    /\ readoutCounter s = 5 /\ pushCounter s = 5 /\ queue s = [].
Proof.
  intros H5 Hv Hq Harr.
  destruct (Harr 0) as [k0 A0]; [lia|]. destruct (Harr 1) as [k1 A1]; [lia|].
  destruct (Harr 2) as [k2 A2]; [lia|]. destruct (Harr 3) as [k3 A3]; [lia|].
  destruct (Harr 4) as [k4 A4]; [lia|].
  assert (Harr' : forall d, 0 <= d < maxPages cfg ->
            exists k', (k' <= k0 + k1 + k2 + k3 + k4)%nat /\ In (HwArrive d) (envHw (env k'))).
  { intros d Hd. rewrite H5 in Hd.
    assert (Hc : d = 0 \/ d = 1 \/ d = 2 \/ d = 3 \/ d = 4) by lia.
    destruct Hc as [-> | [-> | [-> | [-> | ->]]]]; eexists; (split; [|eassumption]); lia. }
  assert (Hb : 0 < maxPages cfg <= NUM_PAGES)
    by (rewrite H5; unfold NUM_PAGES, FIFO_ENTRIES, NUM_OF_BUFFERS; lia).
  set (s0 := fillReadoutQueue cfg (initRun tbl)).
  destruct (drain_progress cfg tbl env _ Hq Hb Hv Harr'
              (k0 + k1 + k2 + k3 + k4 + 1 + Z.to_nat (maxPages cfg - readoutCounter s0))
              0 s0 (reach_init _ _ _) (drain_init cfg tbl env Hb) ltac:(lia))
    as (fuel & s & Hrun & R1 & R2 & R3).
  exists fuel, s.
  pose proof (runDma_from_reachable cfg tbl env 0 fuel s0 (reach_init _ _ _)) as E.
  change (0 + fuel)%nat with fuel in E. rewrite E, Hrun.
  split; [reflexivity|]. rewrite <- H5. auto.
Qed.

Lemma page_limit_drain_witness :
  exists fuel s, runDma (sample_cfg 5 false) uninitialisedTable sample_env fuel
                 = Finished StopPageLimit (outputStats s) s
              /\ readoutCounter s = 5.
Proof.
  assert (Harr : forall d, 0 <= d < 5 -> exists k, In (HwArrive d) (envHw (sample_env k))).
  { intros d Hd. exists 0%nat.
    assert (Hc : d = 0 \/ d = 1 \/ d = 2 \/ d = 3 \/ d = 4) by lia.
    destruct Hc as [-> | [-> | [-> | [-> | ->]]]]; simpl; tauto. }
  destruct (page_limit_drain (sample_cfg 5 false) uninitialisedTable sample_env eq_refl
              (or_introl eq_refl) (fun k => conj eq_refl eq_refl) Harr)
    as (fuel & s & H1 & H2 & _).
  exists fuel, s; split; assumption.
Defined.

(** * Further properties of the program *)

(** * Further properties of the program *)

(** ** Arithmetic of words and bytes *)

Lemma lor_mul_pow2_add (a b k : Z) :
  0 <= k -> 0 <= a < 2 ^ k -> 0 <= b -> Z.lor a (b * 2 ^ k) = a + b * 2 ^ k.
Proof.
  intros Hk Ha Hb.
  assert (Hl : Z.land a (b * 2 ^ k) = 0).
  { apply Z.bits_inj'; intros n Hn. rewrite Z.land_spec, Z.bits_0.
    destruct (Z.lt_ge_cases n k).
    - rewrite Z.mul_pow2_bits_low by lia. apply andb_false_r.
    - rewrite <- (Z.mod_small a (2 ^ k)) by lia. rewrite Z.mod_pow2_bits_high by lia. reflexivity. }
  rewrite <- Z.lxor_lor by exact Hl. rewrite <- Z.add_nocarry_lxor by exact Hl. reflexivity.
Qed.

Lemma lor_byte (a b : Z) :
  0 <= a < 256 -> 0 <= b -> Z.lor a (Z.shiftl b 8) = a + b * 256.
Proof.
  intros Ha Hb. rewrite Z.shiftl_mul_pow2 by lia.
  apply (lor_mul_pow2_add a b 8); simpl; lia.
Qed.

Lemma byteAt_bounds (data : list byte) (k : nat) :
  0 <= DataFormat.byteAt data k < 256.
Proof.
  unfold DataFormat.byteAt. pose proof (Byte.to_N_bounded (nth k data x00)). lia.
Qed.

(** [getWord] as the little-endian sum of its four bytes. *)
Lemma getWord_sum (data : list byte) (i : nat) :
  DataFormat.getWord data i =
  DataFormat.byteAt data (4 * i) + DataFormat.byteAt data (4 * i + 1) * 256
  + DataFormat.byteAt data (4 * i + 2) * 65536 + DataFormat.byteAt data (4 * i + 3) * 16777216.
Proof.
  unfold DataFormat.getWord.
  pose proof (byteAt_bounds data (4 * i)) as B0.
  pose proof (byteAt_bounds data (4 * i + 1)) as B1.
  pose proof (byteAt_bounds data (4 * i + 2)) as B2.
  pose proof (byteAt_bounds data (4 * i + 3)) as B3.
  set (b0 := DataFormat.byteAt data (4 * i)) in *.
  set (b1 := DataFormat.byteAt data (4 * i + 1)) in *.
  set (b2 := DataFormat.byteAt data (4 * i + 2)) in *.
  set (b3 := DataFormat.byteAt data (4 * i + 3)) in *.
  replace (Z.lor b0 (Z.lor (Z.shiftl b1 8) (Z.lor (Z.shiftl b2 16) (Z.shiftl b3 24))))
    with (Z.lor b0 (Z.shiftl (Z.lor b1 (Z.shiftl (Z.lor b2 (Z.shiftl b3 8)) 8)) 8))
    by (rewrite !Z.shiftl_lor, !Z.shiftl_shiftl by lia; reflexivity).
  rewrite (lor_byte b2 b3), (lor_byte b1), (lor_byte b0) by lia. lia.
Qed.

Lemma getBits_byte_sum (b0 b1 b2 b3 : Z) :
  0 <= b0 < 256 -> 0 <= b1 < 256 -> 0 <= b2 < 256 -> 0 <= b3 < 256 ->
  let w := b0 + b1 * 256 + b2 * 65536 + b3 * 16777216 in
  DataFormat.getBits w 0 7 = b0 /\ DataFormat.getBits w 8 15 = b1
  /\ DataFormat.getBits w 16 31 = b2 + b3 * 256.
Proof.
  intros H0 H1 H2 H3 w. unfold DataFormat.getBits.
  rewrite !Z.land_ones, !Z.shiftr_div_pow2 by lia. unfold w; simpl Z.sub; simpl Z.add.
  change (2 ^ 0) with 1; change (2 ^ 8) with 256; change (2 ^ 16) with 65536.
  split_and; Z.div_mod_to_equations; lia.
Qed.

(** The byte conversion of [wordBytes] keeps the value of a byte. *)
Lemma byte_of_land_255 (x : Z) :
  Z.of_N (Byte.to_N (match Byte.of_N (Z.to_N (Z.land x 255)) with Some b => b | None => x00 end))
  = x mod 256.
Proof.
  change 255 with (Z.ones 8). rewrite Z.land_ones by lia. change (2 ^ 8) with 256.
  pose proof (Z.mod_pos_bound x 256 ltac:(lia)) as Hb.
  destruct (Byte.of_N (Z.to_N (x mod 256))) as [b|] eqn:E.
  - apply Byte.to_of_N in E. rewrite E. apply Z2N.id; lia.
  - apply Byte.of_N_None_iff in E. lia.
Qed.

Lemma nth_flat_map_4 (f : nat -> list byte) (a n i j : nat) (d : byte) :
  (forall x, length (f x) = 4%nat) -> (i < n)%nat -> (j < 4)%nat ->
  nth (4 * i + j) (flat_map f (seq a n)) d = nth j (f (a + i)%nat) d.
Proof.
  intros Hf; revert a i; induction n as [|n IH]; intros a i Hi Hj; [lia|].
  simpl seq; simpl flat_map. destruct i as [|i].
  - rewrite app_nth1 by (rewrite Hf; lia). f_equal; f_equal; lia.
  - rewrite app_nth2 by (rewrite Hf; lia). rewrite Hf.
    replace (4 * S i + j - 4)%nat with (4 * i + j)%nat by lia.
    rewrite IH by lia. f_equal; f_equal; lia.
Qed.

Lemma length_flat_map_4 (f : nat -> list byte) (a n : nat) :
  (forall x, length (f x) = 4%nat) -> length (flat_map f (seq a n)) = (4 * n)%nat.
Proof.
  intros Hf; revert a; induction n as [|n IH]; intros a; [reflexivity|].
  simpl seq; simpl flat_map. rewrite length_app, Hf, IH. lia.
Qed.

Lemma byteAt_printToFileBin (page : Page) (i j : nat) :
  (i < 2048)%nat -> (j < 4)%nat ->
  DataFormat.byteAt (printToFileBin page) (4 * i + j) = (page (Z.of_nat i) / 2 ^ (8 * Z.of_nat j)) mod 256.
Proof.
  intros Hi Hj. unfold DataFormat.byteAt, printToFileBin.
  rewrite (nth_flat_map_4 (fun i => wordBytes (page (Z.of_nat i)))) by (reflexivity || (simpl; lia)).
  simpl Nat.add. unfold wordBytes.
  destruct j as [|[|[|[|j]]]]. 5: lia.
  all: cbn [nth map].
  all: etransitivity; [apply byte_of_land_255|].
  all: rewrite Z.shiftr_div_pow2 by lia; reflexivity.
Qed.

(** ** Strings *)

Lemma substring_full (s : String.string) : String.substring 0 (String.length s) s = s.
Proof. induction s as [|c s IH]; simpl; [reflexivity|rewrite IH; reflexivity]. Qed.

Lemma substring_prefix_length (n : nat) (s : String.string) :
  String.length (String.substring 0 n s) = Nat.min n (String.length s).
Proof.
  revert n; induction s as [|c s IH]; intros [|n]; simpl; auto.
Qed.

Lemma substring_prefix_rest (n : nat) (s : String.string) :
  s = String.append (String.substring 0 n s) (String.substring n (String.length s - n) s).
Proof.
  revert n; induction s as [|c s IH]; intros [|n]; simpl; auto.
  - rewrite substring_full; reflexivity.
  - f_equal; apply IH.
Qed.

Lemma substring_rest_length (n : nat) (s : String.string) :
  String.length (String.substring n (String.length s - n) s) = (String.length s - n)%nat.
Proof.
  revert n; induction s as [|c s IH]; intros [|n]; simpl; auto.
  rewrite substring_full; reflexivity.
Qed.


(** ** The validator's loop *)

Lemma check_loop_some (n : nat) (f : Z -> Z) (p : Page) (i o e a : Z) :
  check_loop n f p i = Some (o, e, a) ->
  exists j, 0 <= j < Z.of_nat n /\ o = i + 8 * j /\ o < DMA_PAGE_SIZE_32
    /\ e = f o /\ a = p o /\ a <> e
    /\ (forall j', 0 <= j' < j -> p (i + 8 * j') = f (i + 8 * j')).
Proof.
  revert i; induction n as [|n IH]; intros i H; simpl in H; [discriminate|].
  destruct (i <? DMA_PAGE_SIZE_32) eqn:Hi; [|discriminate]. apply Z.ltb_lt in Hi.
  destruct (p i =? f i) eqn:Hpi; simpl in H.
  - apply Z.eqb_eq in Hpi.
    destruct (IH _ H) as (j & Hj & Ho & Hlt & He & Ha & Hne & Hpre).
    exists (j + 1). unfold PATTERN_STRIDE in *. split_and; try lia; auto.
    intros j' Hj'. destruct (Z.eq_dec j' 0) as [->|Hj0].
    + rewrite Z.mul_0_r, Z.add_0_r; exact Hpi.
    + specialize (Hpre (j' - 1) ltac:(lia)).
      replace (i + 8 * j') with (i + 8 + 8 * (j' - 1)) by lia. exact Hpre.
  - injection H as <- <- <-. apply Z.eqb_neq in Hpi.
    exists 0. split_and; try lia; auto.
Qed.

Lemma check_loop_none_inv (n : nat) (f : Z -> Z) (p : Page) (i : Z) :
  check_loop n f p i = None ->
  forall j, 0 <= j < Z.of_nat n -> i + 8 * j < DMA_PAGE_SIZE_32 -> p (i + 8 * j) = f (i + 8 * j).
Proof.
  revert i; induction n as [|n IH]; intros i H j Hj Hlt; [lia|].
  simpl in H. destruct (i <? DMA_PAGE_SIZE_32) eqn:Hi.
  - destruct (p i =? f i) eqn:Hpi; simpl in H; [|discriminate].
    apply Z.eqb_eq in Hpi. destruct (Z.eq_dec j 0) as [->|Hj0].
    + rewrite Z.mul_0_r, Z.add_0_r; exact Hpi.
    + replace (i + 8 * j) with (i + PATTERN_STRIDE + 8 * (j - 1)) by (unfold PATTERN_STRIDE; lia).
      apply IH; [exact H|lia|unfold PATTERN_STRIDE in *; lia].
  - apply Z.ltb_ge in Hi. lia.
Qed.

Lemma check_loop_ext (n : nat) (f : Z -> Z) (p1 p2 : Page) (i : Z) :
  (forall j, 0 <= j < Z.of_nat n -> p1 (i + 8 * j) = p2 (i + 8 * j)) ->
  check_loop n f p1 i = check_loop n f p2 i.
Proof.
  revert i; induction n as [|n IH]; intros i H; simpl; [reflexivity|].
  assert (H0 : p1 i = p2 i) by (specialize (H 0 ltac:(lia)); rewrite Z.mul_0_r, Z.add_0_r in H; exact H).
  rewrite H0. destruct (i <? DMA_PAGE_SIZE_32); [|reflexivity].
  destruct (negb (p2 i =? f i)); [reflexivity|].
  apply IH. intros j Hj. specialize (H (j + 1) ltac:(lia)).
  unfold PATTERN_STRIDE; replace (i + 8 + 8 * j) with (i + 8 * (j + 1)) by lia. exact H.
Qed.

Lemma check_bounded (verbose : bool) (f : Z -> Z) (page : Page) (pidx ev : Z)
    (vs vs' : ValidatorState) (b : bool) :
  check verbose f page pidx ev vs = (b, vs') -> errors_bounded vs ->
  errors_bounded vs' /\ vErrorCount vs <= vErrorCount vs' <= vErrorCount vs + 1.
Proof.
  unfold check, errors_bounded. destruct (check_loop _ _ _ _) as [[[i e] a]|].
  - intros H; injection H as <- <-; simpl. intros [H1 H2].
    destruct (verbose && (vErrorCount vs + 1 <? MAX_RECORDED_ERRORS)) eqn:E.
    + apply andb_true_iff in E as [_ E]. apply Z.ltb_lt in E.
      rewrite length_app; simpl; lia.
    + lia.
  - intros H; injection H as <- <-; lia.
Qed.

Lemma checkErrors_bounded (verbose : bool) (pattern : GeneratorPattern) (page : Page)
    (pidx ev counter : Z) (vs vs' : ValidatorState) (b : bool) :
  checkErrors verbose pattern page pidx ev counter vs = inr (b, vs') -> errors_bounded vs ->
  errors_bounded vs' /\ vErrorCount vs <= vErrorCount vs' <= vErrorCount vs + 1.
Proof.
  destruct pattern; simpl; intros H; try discriminate; injection H as H; eapply check_bounded; eauto.
Qed.

(** ** More frame lemmas *)

Lemma lowPriorityTasks_frame2 (e : Env) (s : Run) :
  let s' := lowPriorityTasks e s in
  table s' = table s /\ pageIndexCounter s' = pageIndexCounter s /\ validator s' = validator s.
Proof. unfold lowPriorityTasks; cbv zeta; split_ifs; simpl; split_and; reflexivity. Qed.

Lemma lowPriorityTasks_sigint (e : Env) (s : Run) :
  (handlingSigint s = true -> pushEnabled s = false) ->
  (handlingSigint (lowPriorityTasks e s) = true -> pushEnabled (lowPriorityTasks e s) = false)
  /\ (handlingSigint s = true -> handlingSigint (lowPriorityTasks e s) = true).
Proof.
  intros H. unfold lowPriorityTasks.
  destruct (handlingSigint s) eqn:Hh; [specialize (H eq_refl)|]; cbv zeta; split_ifs; simpl in *;
    split; intros; congruence.
Qed.

Lemma apply_hw_frame2 (evs : list HwEvent) (s : Run) :
  let s' := fold_left apply_hw evs s in
  table s' = table s /\ pageIndexCounter s' = pageIndexCounter s /\ validator s' = validator s.
Proof.
  revert s; induction evs as [|ev evs IH]; intros s; simpl; [split_and; reflexivity|].
  destruct (IH (apply_hw s ev)) as (I1 & I2 & I3). rewrite I1, I2, I3.
  destruct ev; simpl; split_and; reflexivity.
Qed.

Lemma fill_go_validator (n : nat) (cfg : Config) (s : Run) :
  validator (fill_go n cfg s) = validator s.
Proof.
  revert s; induction n as [|n IH]; intros s; simpl; [reflexivity|].
  destruct (shouldPushQueue cfg s); [rewrite IH|]; reflexivity.
Qed.

Lemma consumeFront_frame2 (cfg : Config) (s s' : Run) :
  consumeFront cfg s = inr s' ->
  table s' = table s /\ pageIndexCounter s' = pageIndexCounter s
  /\ (errors_bounded (validator s) ->
      errors_bounded (validator s')
      /\ vErrorCount (validator s) <= vErrorCount (validator s') <= vErrorCount (validator s) + 1).
Proof.
  intros Hc. unfold consumeFront in Hc.
  destruct (queue s) as [|h rest]; [injection Hc as <-; split_and; auto; intros Hb; split; [exact Hb|lia]|].
  unfold readoutPage in Hc.
  set (s1 := if fileOutput cfg then emit (EvPrintToFile h) s else s) in Hc.
  assert (F1 : table s1 = table s /\ pageIndexCounter s1 = pageIndexCounter s /\ validator s1 = validator s)
    by (unfold s1; destruct (fileOutput cfg); split_and; reflexivity).
  destruct (readoutCheck cfg h s1) as [e|s2] eqn:Hr; [discriminate|].
  assert (F2 : table s2 = table s1 /\ pageIndexCounter s2 = pageIndexCounter s1
               /\ (errors_bounded (validator s1) ->
                   errors_bounded (validator s2)
                   /\ vErrorCount (validator s1) <= vErrorCount (validator s2) <= vErrorCount (validator s1) + 1)).
  { unfold readoutCheck in Hr. destruct (checkError cfg).
    - destruct (checkErrors _ _ _ _ _ _ _) as [e|[b vs]] eqn:Hce; [discriminate|].
      injection Hr as <-; simpl. split_and; auto. intros Hb; eapply checkErrors_bounded; eauto.
    - injection Hr as <-. split_and; auto; intros Hb; split; [exact Hb|lia]. }
  injection Hc as <-. destruct F1 as (A1 & A2 & A3). destruct F2 as (B1 & B2 & B3).
  rewrite A3 in B3.
  destruct (legacyAck cfg); [destruct (_ =? 0)|]; simpl; split_and; congruence || auto.
Qed.

(** ** Pages of the queue *)

Lemma in_zseq (x a : Z) (n : nat) : In x (zseq a n) <-> a <= x < a + Z.of_nat n.
Proof.
  revert a; induction n as [|n IH]; intros a; simpl; [lia|].
  rewrite IH. lia.
Qed.

Lemma mod_eq_close (a b M : Z) : 0 < M -> 0 <= b - a < M -> a mod M = b mod M -> a = b.
Proof.
  intros HM Hab Hm. rewrite (Z.div_mod a M), (Z.div_mod b M) by lia.
  rewrite Hm. f_equal. f_equal.
  Z.div_mod_to_equations. nia.
Qed.

Lemma NoDup_mod_zseq (M a : Z) (n : nat) :
  Z.of_nat n <= M -> NoDup (map (fun x => x mod M) (zseq a n)).
Proof.
  revert a; induction n as [|n IH]; intros a Hn; simpl; [constructor|].
  constructor; [|apply IH; lia].
  rewrite in_map_iff. intros (x & Hx & Hin). apply in_zseq in Hin.
  assert (a = x) by (apply (mod_eq_close a x M); lia). lia.
Qed.

Lemma map_hSeq_ext (f : Handle -> Z) (g : Z -> Z) (q : list Handle) :
  Forall (fun h => f h = g (hSeq h)) q -> map f q = map g (map hSeq q).
Proof. induction 1; simpl; congruence. Qed.

Lemma Inv_queued_hSeq (cfg : Config) (s : Run) (h : Handle) :
  Inv cfg s -> In h (queue s) -> readoutCounter s <= hSeq h < pushCounter s.
Proof.
  intros (I1 & I2 & _) Hin. apply (in_map hSeq) in Hin. rewrite I2 in Hin.
  apply in_zseq in Hin. lia.
Qed.

Lemma Inv_queue_length (cfg : Config) (s : Run) :
  Inv cfg s -> Z.of_nat (length (queue s)) = pushCounter s - readoutCounter s.
Proof.
  intros (I1 & I2 & _). rewrite <- (length_map hSeq), I2, zseq_length. lia.
Qed.

Lemma pages_inv_frame (cfg : Config) (s s' : Run) :
  pages_inv cfg s -> queue s' = queue s -> pushCounter s' = pushCounter s ->
  table s' = table s -> pageIndexCounter s' = pageIndexCounter s -> pages_inv cfg s'.
Proof. unfold pages_inv; intros H -> -> -> ->; exact H. Qed.

Lemma pages_inv_pushPage (cfg : Config) (s : Run) :
  0 < numPageAddresses cfg -> Inv cfg s -> pages_inv cfg s -> shouldPushQueue cfg s = true ->
  pages_inv cfg (pushPage cfg s).
Proof.
  intros HN HI (P1 & P2) Hs.
  pose proof (shouldPush_length _ _ Hs) as Hlen.
  pose proof (Inv_queue_length _ _ HI) as Hql.
  destruct (pushPage_frame cfg s Hs) as (Q1 & Q2 & _).
  assert (T : table (pushPage cfg s)
              = setDescriptor (pageAddresses cfg) (table s) (pageIndexCounter s) (descriptorCounter s))
    by reflexivity.
  assert (C : pageIndexCounter (pushPage cfg s) = (pageIndexCounter s + 1) mod numPageAddresses cfg)
    by reflexivity.
  assert (Hq : forall h, In h (queue s) -> readoutCounter s <= hSeq h < pushCounter s)
    by (intros h; apply (Inv_queued_hSeq cfg); exact HI).
  destruct HI as (I1 & I2 & I3 & I4 & _).
  unfold pages_inv. rewrite Q1, Q2, T, C, P1. split.
  { rewrite Z.add_mod_idemp_l by lia. reflexivity. }
  apply Forall_app; split.
  - rewrite Forall_forall in P2 |- *. intros h Hin.
    destruct (P2 h Hin) as [R1 R2]. split; [exact R1|].
    pose proof (Hq h Hin) as Hr.
    unfold setDescriptor, upd.
    destruct (descriptorIndex h =? descriptorCounter s) eqn:E; [|exact R2].
    exfalso. apply Z.eqb_eq in E. rewrite Forall_forall in I3. rewrite (I3 h Hin), I4 in E.
    assert (hSeq h = pushCounter s) by (apply (mod_eq_close _ _ NUM_PAGES); [reflexivity|lia|exact E]).
    lia.
  - constructor; [|constructor]. simpl. split; [reflexivity|].
    unfold descriptorFor, setDescriptor, upd. rewrite Z.eqb_refl. reflexivity.
Qed.

Lemma pages_inv_fill_go (n : nat) (cfg : Config) (s : Run) :
  0 < numPageAddresses cfg -> Inv cfg s -> pages_inv cfg s -> pages_inv cfg (fill_go n cfg s).
Proof.
  intros HN; revert s; induction n as [|n IH]; intros s HI HP; simpl; [exact HP|].
  destruct (shouldPushQueue cfg s) eqn:Hs; [|exact HP].
  apply IH; [apply Inv_pushPage; auto|apply pages_inv_pushPage; auto].
Qed.

Lemma pages_inv_loop_iter (cfg : Config) (e : Env) (s s' : Run) :
  0 < numPageAddresses cfg -> Inv cfg s -> pages_inv cfg s ->
  loop_iter cfg e s = Continue s' -> pages_inv cfg s'.
Proof.
  intros HN HI HP Hl. destruct (loop_iter_continue cfg e s s' Hl) as (_ & _ & Hs).
  pose proof (Inv_lowPriorityTasks cfg e s HI) as HI1.
  destruct (lowPriorityTasks_frame e s) as (L1 & L2 & _).
  destruct (lowPriorityTasks_frame2 e s) as (L3 & L4 & _).
  assert (HP1 : pages_inv cfg (lowPriorityTasks e s)) by (eapply pages_inv_frame; eauto).
  pose proof (pages_inv_fill_go (Z.to_nat NUM_PAGES) cfg _ HN HI1 HP1) as HP2.
  fold (fillReadoutQueue cfg (lowPriorityTasks e s)) in HP2.
  set (s2 := fillReadoutQueue cfg (lowPriorityTasks e s)) in *.
  destruct (apply_hw_frame (envHw e) s2) as (A1 & A2 & _).
  destruct (apply_hw_frame2 (envHw e) s2) as (A3 & A4 & _).
  assert (HP3 : pages_inv cfg (fold_left apply_hw (envHw e) s2)) by (eapply pages_inv_frame; eauto).
  destruct Hs as [[-> _]|(h & rest & Hq & _ & Hc)]; [exact HP3|].
  destruct (consumeFront_spec _ _ _ _ _ Hq Hc) as (C1 & _ & C3 & _).
  destruct (consumeFront_frame2 _ _ _ Hc) as (C4 & C5 & _).
  destruct HP3 as (P1 & P2). unfold pages_inv. rewrite C1, C3, C4, C5. split; [exact P1|].
  rewrite Hq in P2. inversion P2; assumption.
Qed.

Lemma reachable_pages_inv (cfg : Config) (tbl : DescriptorTable) (env : nat -> Env) (k : nat) (s : Run) :
  0 < numPageAddresses cfg -> reachable cfg tbl env k s -> pages_inv cfg s.
Proof.
  intros HN. induction 1 as [|k s s' Hr IH Hs].
  - apply pages_inv_fill_go; [exact HN|apply Inv_initRun|].
    split; [simpl; rewrite Z.mod_0_l by lia; reflexivity|constructor].
  - eapply pages_inv_loop_iter; eauto. eapply reachable_Inv; eauto.
Qed.

(** ** Errors recorded over a run *)

Lemma errors_loop_iter (cfg : Config) (e : Env) (s s' : Run) :
  errors_bounded (validator s) -> vErrorCount (validator s) <= readoutCounter s ->
  loop_iter cfg e s = Continue s' ->
  errors_bounded (validator s') /\ vErrorCount (validator s') <= readoutCounter s'.
Proof.
  intros HB HC Hl. destruct (loop_iter_continue cfg e s s' Hl) as (_ & _ & Hs).
  destruct (lowPriorityTasks_frame e s) as (_ & _ & L3 & _).
  destruct (lowPriorityTasks_frame2 e s) as (_ & _ & L5).
  set (s1 := lowPriorityTasks e s) in *.
  destruct (fill_go_frame (Z.to_nat NUM_PAGES) cfg s1) as (F1 & _).
  pose proof (fill_go_validator (Z.to_nat NUM_PAGES) cfg s1) as F2.
  fold (fillReadoutQueue cfg s1) in F1, F2.
  set (s2 := fillReadoutQueue cfg s1) in *.
  destruct (apply_hw_frame (envHw e) s2) as (_ & _ & A3 & _).
  destruct (apply_hw_frame2 (envHw e) s2) as (_ & _ & A5).
  set (s3 := fold_left apply_hw (envHw e) s2) in *.
  assert (V3 : validator s3 = validator s) by congruence.
  assert (R3 : readoutCounter s3 = readoutCounter s) by congruence.
  destruct Hs as [[-> _]|(h & rest & Hq & _ & Hc)].
  - rewrite V3, R3. split; assumption.
  - destruct (consumeFront_spec _ _ _ _ _ Hq Hc) as (_ & C2 & _).
    destruct (consumeFront_frame2 _ _ _ Hc) as (_ & _ & C4).
    rewrite V3 in C4. destruct (C4 HB) as [D1 D2]. split; [exact D1|]. lia.
Qed.

Lemma reachable_errors (cfg : Config) (tbl : DescriptorTable) (env : nat -> Env) (k : nat) (s : Run) :
  reachable cfg tbl env k s ->
  errors_bounded (validator s) /\ vErrorCount (validator s) <= readoutCounter s.
Proof.
  induction 1 as [|k s s' Hr IH Hs].
  - unfold fillReadoutQueue. rewrite fill_go_validator.
    destruct (fill_go_frame (Z.to_nat NUM_PAGES) cfg (initRun tbl)) as (F1 & _). rewrite F1.
    unfold errors_bounded; simpl; unfold MAX_RECORDED_ERRORS; lia.
  - destruct IH; eapply errors_loop_iter; eauto.
Qed.

(** ** SIGINT handling *)

Lemma reachable_sigint (cfg : Config) (tbl : DescriptorTable) (env : nat -> Env) (k : nat) (s : Run) :
  reachable cfg tbl env k s -> handlingSigint s = true -> pushEnabled s = false.
Proof.
  induction 1 as [|k s s' Hr IH Hs].
  - unfold fillReadoutQueue. destruct (fill_go_frame (Z.to_nat NUM_PAGES) cfg (initRun tbl))
      as (_ & _ & F3 & _ & F5 & _). rewrite F5; discriminate.
  - destruct (loop_iter_continue_flags _ _ _ _ Hs) as (F1 & _ & F3 & _).
    rewrite F1, F3. apply lowPriorityTasks_sigint, IH.
Qed.

Lemma loop_iter_sigint (cfg : Config) (e : Env) (s s' : Run) :
  handlingSigint s = true -> pushEnabled s = false -> loop_iter cfg e s = Continue s' ->
  handlingSigint s' = true /\ pushCounter s' = pushCounter s.
Proof.
  intros Hh Hp Hl. destruct (loop_iter_continue_flags _ _ _ _ Hl) as (F1 & _ & F3 & _ & F5 & _).
  destruct (lowPriorityTasks_sigint e s (fun _ => Hp)) as [S1 S2].
  destruct (lowPriorityTasks_frame e s) as (_ & L2 & _).
  split; [rewrite F3; apply S2, Hh|].
  rewrite F5. unfold fillReadoutQueue. rewrite fill_go_stops; [exact L2|].
  unfold shouldPushQueue. rewrite (S1 (S2 Hh)), andb_false_r. reflexivity.
Qed.

(** Number of pages one fill pushes. *)
Lemma fill_go_pushes (n : nat) (cfg : Config) (s : Run) :
  Z.of_nat (length (queue s)) <= NUM_PAGES ->
  (infinitePages cfg = false -> pushCounter s <= maxPages cfg) ->
  NUM_PAGES - Z.of_nat (length (queue s)) <= Z.of_nat n ->
  let pushed :=
    if pushEnabled s then
      if infinitePages cfg then NUM_PAGES - Z.of_nat (length (queue s))
      else Z.min (NUM_PAGES - Z.of_nat (length (queue s))) (maxPages cfg - pushCounter s)
    else 0 in
  pushCounter (fill_go n cfg s) = pushCounter s + pushed
  /\ exists added, queue (fill_go n cfg s) = queue s ++ added
                   /\ map hSeq added = zseq (pushCounter s) (Z.to_nat pushed).
Proof.
  revert s; induction n as [|n IH]; intros s Hl Hm Hn pushed.
  - assert (pushed = 0).
    { unfold pushed. destruct (pushEnabled s), (infinitePages cfg) eqn:Hi;
        try specialize (Hm eq_refl); lia. }
    rewrite H. simpl. split; [lia|]. exists []. rewrite app_nil_r. split; reflexivity.
  - simpl fill_go. destruct (shouldPushQueue cfg s) eqn:Hs.
    + destruct (pushPage_frame cfg s Hs) as (P1 & P2 & _ & _ & _ & _ & P7 & _).
      assert (Hs' := Hs). unfold shouldPushQueue in Hs'.
      apply andb_true_iff in Hs' as [Hs' Hpe]; apply andb_true_iff in Hs' as [Hlt Hlim].
      apply Z.ltb_lt in Hlt.
      set (s1 := pushPage cfg s) in *.
      assert (L1 : Z.of_nat (length (queue s1)) = Z.of_nat (length (queue s)) + 1)
        by (rewrite P1, length_app; simpl; lia).
      destruct (IH s1) as (J1 & added & J2 & J3).
      { lia. }
      { intros Hi. rewrite Hi in Hlim; simpl in Hlim. apply Z.ltb_lt in Hlim. lia. }
      { lia. }
      set (p1 := if pushEnabled s1 then _ else _) in J1, J3.
      assert (E1 : p1 = pushed - 1 /\ 1 <= pushed).
      { unfold p1, pushed. rewrite P7, Hpe, L1, P2.
        destruct (infinitePages cfg) eqn:Hi; [lia|].
        simpl in Hlim. apply Z.ltb_lt in Hlim. lia. }
      destruct E1 as [E1 E2]. rewrite E1 in J1, J3. rewrite P2 in J1, J3.
      rewrite J2, P1. split; [lia|].
      exists (mkHandle (descriptorCounter s) (pageIndexCounter s) (pushCounter s) :: added).
      split; [rewrite <- app_assoc; reflexivity|].
      cbn [map hSeq]. rewrite J3. replace (Z.to_nat pushed) with (S (Z.to_nat (pushed - 1))) by lia.
      reflexivity.
    + assert (pushed = 0).
      { unfold shouldPushQueue in Hs. unfold pushed.
        destruct (pushEnabled s); [|reflexivity].
        rewrite andb_true_r in Hs. apply andb_false_iff in Hs as [Hs|Hs].
        - apply Z.ltb_ge in Hs. destruct (infinitePages cfg); lia.
        - apply orb_false_iff in Hs as [Hi Hs]. rewrite Hi. apply Z.ltb_ge in Hs.
          specialize (Hm Hi). lia. }
      rewrite H. split; [lia|]. exists []. rewrite app_nil_r. split; reflexivity.
Qed.

(** ** Acknowledgments in per-page mode *)

Lemma loop_iter_log (cfg : Config) (e : Env) (s : Run) :
  let s3 := fold_left apply_hw (envHw e) (fillReadoutQueue cfg (lowPriorityTasks e s)) in
  readoutCounter s3 = readoutCounter s
  /\ exists evs, log s3 = log s ++ evs /\ forallb neutral evs = true.
Proof.
  cbv zeta.
  destruct (lowPriorityTasks_frame e s) as (_ & _ & L3 & _ & _ & L6).
  destruct (fill_go_frame (Z.to_nat NUM_PAGES) cfg (lowPriorityTasks e s)) as (F1 & _ & _ & _ & _ & evs & F6 & F7).
  fold (fillReadoutQueue cfg (lowPriorityTasks e s)) in F1, F6.
  destruct (apply_hw_frame (envHw e) (fillReadoutQueue cfg (lowPriorityTasks e s)))
    as (_ & _ & A3 & _ & A5 & _).
  split; [congruence|]. rewrite A5, F6.
  destruct L6 as [L6|(m & L6 & Hm & _)]; rewrite L6.
  - exists evs; split; [reflexivity|apply push_neutral, F7].
  - exists (m :: evs); split; [rewrite <- app_assoc; reflexivity|].
    simpl; rewrite Hm, (push_neutral _ F7); reflexivity.
Qed.

Lemma acks_loop_iter (cfg : Config) (e : Env) (s s' : Run) :
  legacyAck cfg = false ->
  Z.of_nat (count_acks (log s)) = readoutCounter s -> unacked (log s) = O ->
  loop_iter cfg e s = Continue s' ->
  Z.of_nat (count_acks (log s')) = readoutCounter s' /\ unacked (log s') = O.
Proof.
  intros Hleg HA HU Hl. destruct (loop_iter_continue cfg e s s' Hl) as (_ & _ & Hs).
  destruct (loop_iter_log cfg e s) as (R3 & evs & L3 & Hn).
  destruct (neutral_counts _ Hn) as (_ & N2 & N3).
  set (s3 := fold_left apply_hw (envHw e) (fillReadoutQueue cfg (lowPriorityTasks e s))) in *.
  assert (B1 : count_acks (log s3) = count_acks (log s)) by (rewrite L3, count_acks_app, N2; lia).
  assert (B2 : unacked (log s3) = O) by (rewrite L3, unacked_app, N3; exact HU).
  destruct Hs as [[-> _]|(h & rest & Hq & _ & Hc)].
  - rewrite B1, B2, R3. split; [exact HA|reflexivity].
  - destruct (consumeFront_spec _ _ _ _ _ Hq Hc) as (_ & C2 & _ & _ & _ & _ & _ & _ & _ & _ & C11).
    rewrite C11, Hleg, C2, R3. simpl negb. rewrite orb_true_l.
    rewrite !count_acks_app, unacked_app, B1.
    destruct (fileOutput cfg), (checkError cfg); cbn; split; try reflexivity; lia.
Qed.

Lemma reachable_acks (cfg : Config) (tbl : DescriptorTable) (env : nat -> Env) (k : nat) (s : Run) :
  legacyAck cfg = false -> reachable cfg tbl env k s ->
  Z.of_nat (count_acks (log s)) = readoutCounter s /\ unacked (log s) = O.
Proof.
  intros Hleg. induction 1 as [|k s s' Hr IH Hs].
  - destruct (fill_go_frame (Z.to_nat NUM_PAGES) cfg (initRun tbl)) as (F1 & _ & _ & _ & _ & evs & F6 & F7).
    unfold fillReadoutQueue. rewrite F1, F6.
    destruct (neutral_counts _ (push_neutral _ F7)) as (_ & N2 & N3).
    rewrite count_acks_app, unacked_app, N2, N3. split; reflexivity.
  - destruct IH; eapply acks_loop_iter; eauto.
Qed.

(** X1: [getCurrentGeneratorPattern] uses a logical [&&] where a bit mask
    was meant: it returns [Incremental] when the [DMA_CONFIGURATION]
    register is nonzero and [Unknown] when it is zero, and never
    [Alternating] or [Constant]. *)
Theorem getCurrentGeneratorPattern_values (dmaConfigurationRegister : Z) :
  getCurrentGeneratorPattern dmaConfigurationRegister
    = (if dmaConfigurationRegister =? 0 then Unknown else Incremental)
  /\ getCurrentGeneratorPattern dmaConfigurationRegister <> Alternating
  /\ getCurrentGeneratorPattern dmaConfigurationRegister <> Constant.
Proof.
  unfold getCurrentGeneratorPattern.
  destruct (dmaConfigurationRegister =? 0); simpl; split_and; congruence.
Qed.

(** X2: one pass of the register hammer reports a triple
    [(pciCounter, hostCounter, regValue)] exactly when [hostCounter] is in
    [0..255], [regValue] is the value read back after writing it, and the
    low byte [pciCounter] of [regValue] differs from [hostCounter]; the pass
    reports nothing exactly when every read-back agrees with the written
    value on its low byte (the upper 24 bits are ignored). *)
Theorem hammerSweep_reports (readBack : Z -> Z) :
  (forall pciCounter hostCounter regValue,
     In (pciCounter, hostCounter, regValue) (hammerSweep readBack)
     <-> 0 <= hostCounter < 256 /\ regValue = readBack hostCounter
         /\ pciCounter = Z.land regValue 255 /\ pciCounter <> hostCounter)
  /\ (hammerSweep readBack = []
      <-> forall hostCounter, 0 <= hostCounter < 256 -> Z.land (readBack hostCounter) 255 = hostCounter).
Proof.
  assert (Hin : forall pciCounter hostCounter regValue,
     In (pciCounter, hostCounter, regValue) (hammerSweep readBack)
     <-> 0 <= hostCounter < 256 /\ regValue = readBack hostCounter
         /\ pciCounter = Z.land regValue 255 /\ pciCounter <> hostCounter).
  { intros p h r. unfold hammerSweep. rewrite in_flat_map. split.
    - intros (n & Hn & Hx). apply in_seq in Hn.
      destruct (Z.land (readBack (Z.of_nat n)) 255 =? Z.of_nat n) eqn:E; simpl in Hx;
        [contradiction|].
      destruct Hx as [Hx|[]]. injection Hx as <- <- <-. apply Z.eqb_neq in E.
      split_and; auto; lia.
    - intros (Hh & -> & -> & Hne). exists (Z.to_nat h). split; [apply in_seq; lia|].
      rewrite Z2Nat.id by lia.
      replace (Z.land (readBack h) 255 =? h) with false by (symmetry; apply Z.eqb_neq; exact Hne).
      left; reflexivity. }
  split; [exact Hin|]. split.
  - intros He h Hh. destruct (Z.eq_dec (Z.land (readBack h) 255) h) as [E|E]; [exact E|].
    exfalso. assert (In (Z.land (readBack h) 255, h, readBack h) (hammerSweep readBack))
      by (apply Hin; auto). rewrite He in H; exact H.
  - intros Hall. destruct (hammerSweep readBack) as [|[[p h] r] l] eqn:E; [reflexivity|].
    exfalso. assert (Hx : In (p, h, r) ((p, h, r) :: l)) by (left; reflexivity).
    apply Hin in Hx as (Hh & -> & -> & Hne). apply Hne, Hall, Hh.
Qed.

(** X3: on a header of at least 16 bytes, [getLinkId] is byte 12,
    [getPacketCounter] is byte 13 and [getEventSize] is the little-endian
    16-bit value of bytes 10 and 11; so the first two are below 256 and the
    event size below 65536. *)
Theorem header_fields_bytes (data : list byte) :
  (16 <= length data)%nat ->
  DataFormat.getLinkId data = DataFormat.byteAt data 12
  /\ DataFormat.getPacketCounter data = DataFormat.byteAt data 13
  /\ DataFormat.getEventSize data = DataFormat.byteAt data 10 + DataFormat.byteAt data 11 * 256
  /\ 0 <= DataFormat.getLinkId data < 256
  /\ 0 <= DataFormat.getPacketCounter data < 256
  /\ 0 <= DataFormat.getEventSize data < 65536.
Proof.
  intros _. unfold DataFormat.getLinkId, DataFormat.getPacketCounter, DataFormat.getEventSize.
  rewrite !getWord_sum. cbn [Nat.mul Nat.add].
  pose proof (byteAt_bounds data 8). pose proof (byteAt_bounds data 9).
  pose proof (byteAt_bounds data 10). pose proof (byteAt_bounds data 11).
  pose proof (byteAt_bounds data 12). pose proof (byteAt_bounds data 13).
  pose proof (byteAt_bounds data 14). pose proof (byteAt_bounds data 15).
  destruct (getBits_byte_sum (DataFormat.byteAt data 12) (DataFormat.byteAt data 13)
              (DataFormat.byteAt data 14) (DataFormat.byteAt data 15)) as (A1 & A2 & _); auto.
  destruct (getBits_byte_sum (DataFormat.byteAt data 8) (DataFormat.byteAt data 9)
              (DataFormat.byteAt data 10) (DataFormat.byteAt data 11)) as (_ & _ & A3); auto.
  rewrite A1, A2, A3. split_and; lia.
Qed.

Lemma header_fields_bytes_witness :
  DataFormat.getLinkId sample_header = DataFormat.byteAt sample_header 12.
Proof.
  destruct (header_fields_bytes sample_header) as [H _].
  - apply Nat.leb_le; reflexivity.
  - exact H.
Defined.

(** X4: the binary dump of a page has [DMA_PAGE_SIZE] bytes, and reading
    word [i] (below [DMA_PAGE_SIZE_32]) of it back with [getWord] gives the
    page's word [i] as a [uint32_t]. *)
Theorem printToFileBin_roundtrip (page : Page) (i : nat) :
  (i < 2048)%nat ->
  length (printToFileBin page) = Z.to_nat DMA_PAGE_SIZE
  /\ DataFormat.getWord (printToFileBin page) i = u32 (page (Z.of_nat i)).
Proof.
  intros Hi. split.
  { unfold printToFileBin. rewrite length_flat_map_4 by reflexivity. reflexivity. }
  rewrite getWord_sum.
  pose proof (byteAt_printToFileBin page i 0 Hi ltac:(lia)) as B0. rewrite Nat.add_0_r in B0.
  rewrite B0, !byteAt_printToFileBin by lia.
  set (w := page (Z.of_nat i)). unfold u32. simpl Z.of_nat. simpl Z.mul.
  change (2 ^ 0) with 1; change (2 ^ 8) with 256; change (2 ^ 16) with 65536;
  change (2 ^ 24) with 16777216; change (2 ^ 32) with 4294967296.
  Z.div_mod_to_equations; lia.
Qed.

Lemma printToFileBin_roundtrip_witness :
  DataFormat.getWord (printToFileBin mismatch_page) 1 = u32 (mismatch_page 1).
Proof.
  destruct (printToFileBin_roundtrip mismatch_page 1) as [_ H].
  - lia.
  - exact H.
Defined.

(** X5: [outputErrors] always writes the whole error text to the file.
    The console gets nothing unless verbose and the text is non-empty; then
    it gets the header, the first [min 2000 len] characters, and, when the
    text is longer than 2000 characters, the exact number of the characters
    left out. *)
Theorem outputErrors_output (verbose : bool) (errorStr : String.string) :
  snd (outputErrors verbose errorStr) = errorStr
  /\ ((verbose = false \/ errorStr = String.EmptyString) -> fst (outputErrors verbose errorStr) = [])
  /\ (verbose = true -> errorStr <> String.EmptyString ->
      exists shown rest,
        fst (outputErrors verbose errorStr)
          = [OutErrorsHeader; OutText shown]
            ++ (if Nat.ltb 2000 (String.length errorStr) then [OutMoreFollow (String.length rest)] else [])
        /\ errorStr = String.append shown rest
        /\ String.length shown = Nat.min 2000 (String.length errorStr)).
Proof.
  split; [reflexivity|]. split.
  - intros [-> | ->]; [reflexivity|]. destruct verbose; reflexivity.
  - intros -> Hne. unfold outputErrors; cbv zeta.
    replace (String.eqb errorStr String.EmptyString) with false
      by (symmetry; apply String.eqb_neq; exact Hne).
    exists (String.substring 0 2000 errorStr),
           (String.substring 2000 (String.length errorStr - 2000) errorStr).
    split_and.
    + simpl negb; cbv iota. rewrite substring_rest_length. reflexivity.
    + apply substring_prefix_rest.
    + apply substring_prefix_length.
Qed.

(** X9: from a queue within capacity (and, in finite mode, with no more
    pages pushed than the limit), [fillReadoutQueue] pushes exactly
    [NUM_PAGES - length] pages in infinite mode, [min (NUM_PAGES - length)
    (maxPages - pushCounter)] in finite mode, and none while pushes are
    disabled; the new handles are appended in push order. *)
Theorem fillReadoutQueue_pushes (cfg : Config) (s : Run) :
  Z.of_nat (length (queue s)) <= NUM_PAGES ->
  (infinitePages cfg = false -> pushCounter s <= maxPages cfg) ->
  let pushed :=
    if pushEnabled s then
      if infinitePages cfg then NUM_PAGES - Z.of_nat (length (queue s))
      else Z.min (NUM_PAGES - Z.of_nat (length (queue s))) (maxPages cfg - pushCounter s)
    else 0 in
  pushCounter (fillReadoutQueue cfg s) = pushCounter s + pushed
  /\ exists added, queue (fillReadoutQueue cfg s) = queue s ++ added
                   /\ map hSeq added = zseq (pushCounter s) (Z.to_nat pushed).
Proof.
  intros Hl Hm. apply fill_go_pushes; auto. rewrite Z2Nat.id; [lia|discriminate].
Qed.

Lemma fillReadoutQueue_pushes_witness :
  pushCounter (fillReadoutQueue (sample_cfg 50 false) (initRun uninitialisedTable)) = 50.
Proof.
  destruct (fillReadoutQueue_pushes (sample_cfg 50 false) (initRun uninitialisedTable)) as [H _].
  - vm_compute; congruence.
  - intros _; vm_compute; congruence.
  - rewrite H; vm_compute; reflexivity.
Defined.

(** X10: when there are more than [NUM_PAGES] page addresses (the
    condition [initFifo] checks), in every state of the loop the queued
    handles use pairwise distinct descriptor entries and pairwise distinct
    pages, page [hSeq mod N] for the [hSeq]-th pushed page, and each one's
    descriptor entry still holds what [setDescriptor] wrote for it. *)
Theorem queued_pages_distinct (cfg : Config) (tbl : DescriptorTable) (env : nat -> Env)
    (k : nat) (s : Run) :
  reachable cfg tbl env k s -> NUM_PAGES < numPageAddresses cfg ->
  NoDup (map descriptorIndex (queue s))
  /\ NoDup (map pageIndex (queue s))
  /\ Forall (fun h => pageIndex h = hSeq h mod numPageAddresses cfg
                     /\ table s (descriptorIndex h) = descriptorFor cfg (pageIndex h) (descriptorIndex h))
            (queue s).
Proof.
  intros Hr HN.
  pose proof (reachable_Inv _ _ _ _ _ Hr) as HI.
  destruct (reachable_pages_inv cfg tbl env k s ltac:(unfold NUM_PAGES in HN; simpl in HN; lia) Hr)
    as (_ & P2).
  pose proof (Inv_queue_length _ _ HI) as Hlen.
  destruct HI as (I1 & I2 & I3 & _ & I5 & _).
  split_and; [| |exact P2].
  - rewrite (map_hSeq_ext descriptorIndex (fun x => x mod NUM_PAGES)) by exact I3.
    rewrite I2. apply NoDup_mod_zseq. lia.
  - rewrite (map_hSeq_ext pageIndex (fun x => x mod numPageAddresses cfg)).
    + rewrite I2. apply NoDup_mod_zseq. lia.
    + eapply Forall_impl; [|exact P2]. intros h [H _]; exact H.
Qed.

Lemma queued_pages_distinct_witness :
  NoDup (map pageIndex (queue (sample_start (sample_cfg 0 false)))).
Proof.
  destruct (queued_pages_distinct (sample_cfg 0 false) uninitialisedTable sample_env 0
              (sample_start (sample_cfg 0 false)) (reach_init _ _ _)) as (_ & H & _).
  - vm_compute; reflexivity.
  - exact H.
Defined.

(** X8: in every state of the loop (the loop also stops in one of these)
    the error stream holds at most one line per counted error and fewer
    than [MAX_RECORDED_ERRORS] lines, and the error count of the statistics
    is between 0 and the number of pages read out. *)
Theorem errors_within_pages (cfg : Config) (tbl : DescriptorTable) (env : nat -> Env)
    (k : nat) (s : Run) :
  reachable cfg tbl env k s ->
  Z.of_nat (length (vErrorStream (validator s))) <= vErrorCount (validator s)
  /\ Z.of_nat (length (vErrorStream (validator s))) < MAX_RECORDED_ERRORS
  /\ 0 <= sumErrors (outputStats s) <= sumPages (outputStats s).
Proof.
  intros Hr. destruct (reachable_errors _ _ _ _ _ Hr) as [[B1 B2] B3].
  simpl. split_and; lia.
Qed.

Lemma errors_within_pages_witness :
  0 < Z.of_nat (length (vErrorStream (validator (state_after error_cfg sample_env 20))))
  /\ Z.of_nat (length (vErrorStream (validator (state_after error_cfg sample_env 20))))
     <= vErrorCount (validator (state_after error_cfg sample_env 20))
  /\ 0 < sumErrors (outputStats (state_after error_cfg sample_env 20))
  /\ sumErrors (outputStats (state_after error_cfg sample_env 20))
     <= sumPages (outputStats (state_after error_cfg sample_env 20)).
Proof.
  destruct (errors_within_pages error_cfg uninitialisedTable sample_env 20
              (state_after error_cfg sample_env 20)
              (reachable_sample error_cfg sample_env 20 ltac:(vm_compute; reflexivity))) as (H1 & _ & _ & H4).
  split; [vm_compute; reflexivity|]. split; [exact H1|].
  split; [vm_compute; reflexivity|exact H4].
Defined.

(** X11: once the loop handles a SIGINT, pushes are disabled, and in every
    later state of the run the SIGINT handling stays on, pushes stay
    disabled and no page is pushed any more. *)
Theorem sigint_stops_pushes (cfg : Config) (tbl : DescriptorTable) (env : nat -> Env)
    (k : nat) (s : Run) :
  reachable cfg tbl env k s -> handlingSigint s = true ->
  pushEnabled s = false
  /\ forall n s', (runLoop cfg env n k s = Continue s' \/ exists r, runLoop cfg env n k s = Stopped r s') ->
       handlingSigint s' = true /\ pushEnabled s' = false /\ pushCounter s' = pushCounter s.
Proof.
  intros Hr Hh. pose proof (reachable_sigint _ _ _ _ _ Hr Hh) as Hp.
  split; [exact Hp|].
  intros n; revert k s Hr Hh Hp; induction n as [|n IH]; intros k s Hr Hh Hp s' Hrun; simpl in Hrun.
  - destruct Hrun as [Hrun|(r & Hrun)]; [injection Hrun as <-|discriminate]. split_and; auto.
  - destruct (loop_iter cfg (env k) s) as [s1|r s1|err] eqn:Hs.
    + destruct (loop_iter_sigint _ _ _ _ Hh Hp Hs) as [H1 H2].
      pose proof (reach_step _ _ _ _ _ _ Hr Hs) as Hr1.
      destruct (IH (S k) s1 Hr1 H1 (reachable_sigint _ _ _ _ _ Hr1 H1) s' Hrun) as (G1 & G2 & G3).
      split_and; congruence.
    + assert (s1 = s) by (eapply loop_iter_stopped; eauto). subst s1.
      destruct Hrun as [Hrun|(r' & Hrun)]; [discriminate|injection Hrun as _ <-]. split_and; auto.
    + destruct Hrun as [Hrun|(r' & Hrun)]; discriminate.
Qed.

Lemma sigint_stops_pushes_witness :
  pushEnabled (state_after (sample_cfg 0 false) sigint_env (Z.to_nat 10001)) = false.
Proof.
  destruct (sigint_stops_pushes (sample_cfg 0 false) uninitialisedTable sigint_env (Z.to_nat 10001)
              (state_after (sample_cfg 0 false) sigint_env (Z.to_nat 10001))) as [H _].
  - apply reachable_sample. vm_compute. reflexivity.
  - vm_compute. reflexivity.
  - exact H.
Defined.

(** X6: the validator compares only the words at multiples of
    [PATTERN_STRIDE]. Without a mismatch there it returns [false] and leaves
    the error state alone; otherwise it returns [true] for the first
    mismatching stride offset, counts one error, and records that offset
    with its expected and actual values when verbose and the new count is
    below [MAX_RECORDED_ERRORS]. *)
Theorem check_first_mismatch (verbose : bool) (patternFunction : Z -> Z) (page : Page)
    (pageIdx eventNumber : Z) (vs : ValidatorState) :
  match check verbose patternFunction page pageIdx eventNumber vs with
  | (false, vs') =>
      vs' = vs /\ forall k, 0 <= k < 256 -> page (8 * k) = patternFunction (8 * k)
  | (true, vs') =>
      exists k, 0 <= k < 256 /\ page (8 * k) <> patternFunction (8 * k)
        /\ (forall k', 0 <= k' < k -> page (8 * k') = patternFunction (8 * k'))
        /\ vs' = mkValidatorState (vErrorCount vs + 1)
                   (if verbose && (vErrorCount vs + 1 <? MAX_RECORDED_ERRORS)
                    then vErrorStream vs ++ [mkErrorRecord eventNumber pageIdx (8 * k)
                                               (patternFunction (8 * k)) (page (8 * k))]
                    else vErrorStream vs)
  end.
Proof.
  unfold check. rewrite check_iterations_eq.
  destruct (check_loop 256 patternFunction page 0) as [[[i e] a]|] eqn:E.
  - destruct (check_loop_some _ _ _ _ _ _ _ E) as (j & Hj & Ho & _ & He & Ha & Hne & Hpre).
    rewrite Z.add_0_l in Ho. subst i e a.
    exists j. split; [simpl in Hj; lia|]. split; [exact Hne|]. split; [|reflexivity].
    intros k' Hk'. specialize (Hpre k' Hk'). rewrite Z.add_0_l in Hpre. exact Hpre.
  - split; [reflexivity|]. intros k Hk.
    pose proof (check_loop_none_inv _ _ _ _ E k) as H. rewrite Z.add_0_l in H.
    apply H; [simpl; lia|change DMA_PAGE_SIZE_32 with 2048; lia].
Qed.

(** X7: [checkErrors] does not read the words between the stride
    offsets: two pages agreeing on the words [8 * k], [k < 256], give the
    same result. *)
Theorem checkErrors_reads_stride_only (verbose : bool) (pattern : GeneratorPattern)
    (page1 page2 : Page) (pageIdx eventNumber counter : Z) (vs : ValidatorState) :
  (forall k, 0 <= k < 256 -> page1 (8 * k) = page2 (8 * k)) ->
  checkErrors verbose pattern page1 pageIdx eventNumber counter vs
  = checkErrors verbose pattern page2 pageIdx eventNumber counter vs.
Proof.
  intros H.
  assert (Hl : forall f, check_loop check_iterations f page1 0 = check_loop check_iterations f page2 0).
  { intros f. apply check_loop_ext. rewrite check_iterations_eq. intros j Hj.
    rewrite Z.add_0_l. apply H. simpl in Hj; lia. }
  destruct pattern; simpl; try reflexivity; unfold check; rewrite Hl; reflexivity.
Qed.

Lemma checkErrors_reads_stride_only_witness :
  checkErrors true Incremental (fun i => 100 + i / 8) 0 0 100 (mkValidatorState 0 [])
  = checkErrors true Incremental (upd (fun i => 100 + i / 8) 1 0) 0 0 100 (mkValidatorState 0 []).
Proof.
  apply checkErrors_reads_stride_only.
  intros k Hk. unfold upd. destruct (8 * k =? 1) eqn:E; [apply Z.eqb_eq in E; lia|reflexivity].
Defined.

(** X12: with more than [NUM_PAGES] page addresses, [initFifo] succeeds,
    and descriptor entry [i] ([0 <= i < NUM_PAGES]) holds a full page
    length, the card source address [(i mod NUM_OF_BUFFERS) * DMA_PAGE_SIZE]
    and the bus address of page [i]. *)
Theorem initFifo_table (pageAddresses : list PageAddress) :
  NUM_PAGES < Z.of_nat (length pageAddresses) ->
  exists tbl, initFifo pageAddresses = inr tbl
    /\ forall i, 0 <= i < NUM_PAGES ->
         tbl i = mkDescriptor DMA_PAGE_SIZE_32 ((i mod NUM_OF_BUFFERS) * DMA_PAGE_SIZE)
                   (paBus (nth (Z.to_nat i) pageAddresses nullPageAddress)).
Proof.
  intros H. unfold initFifo.
  destruct (Z.of_nat (length pageAddresses) <=? NUM_PAGES) eqn:E; [apply Z.leb_le in E; lia|].
  eexists; split; [reflexivity|]. intros i Hi.
  rewrite setDescriptors_go_spec.
  replace ((0 <=? i) && (i <? 0 + Z.of_nat (Z.to_nat DESCRIPTOR_ENTRIES))) with true; [reflexivity|].
  symmetry. apply andb_true_iff. split; [apply Z.leb_le|apply Z.ltb_lt];
    unfold DESCRIPTOR_ENTRIES in *; rewrite ?Z2Nat.id by (unfold NUM_PAGES, FIFO_ENTRIES, NUM_OF_BUFFERS; lia); lia.
Qed.

Lemma initFifo_table_witness :
  exists tbl, initFifo sample_pages = inr tbl
    /\ tbl 33 = mkDescriptor DMA_PAGE_SIZE_32 DMA_PAGE_SIZE (33 * DMA_PAGE_SIZE).
Proof.
  destruct (initFifo_table sample_pages) as (tbl & H1 & H2).
  - vm_compute; reflexivity.
  - exists tbl. split; [exact H1|]. rewrite H2; [reflexivity|vm_compute; split; congruence].
Defined.

(** X13: without legacy acknowledgment, every state of the loop has sent
    exactly one acknowledgment per page read out, and no page read out
    waits for its acknowledgment. *)
Theorem per_page_acks (cfg : Config) (tbl : DescriptorTable) (env : nat -> Env) (k : nat) (s : Run) :
  legacyAck cfg = false -> reachable cfg tbl env k s ->
  Z.of_nat (count_acks (log s)) = readoutCounter s /\ unacked (log s) = O.
Proof. apply reachable_acks. Qed.

Lemma per_page_acks_witness :
  Z.of_nat (count_acks (log (state_after (sample_cfg 0 false) sample_env 20)))
  = readoutCounter (state_after (sample_cfg 0 false) sample_env 20).
Proof.
  destruct (per_page_acks (sample_cfg 0 false) uninitialisedTable sample_env 20
              (state_after (sample_cfg 0 false) sample_env 20)) as [H _].
  - reflexivity.
  - apply reachable_sample. vm_compute. reflexivity.
  - exact H.
Defined.
